(** * spotify-local: the control client and its status poller

    A shallow embedding of [spotify_local/core.py] (class [SpotifyLocal])
    and [spotify_local/update_status.py] (class [UpdateStatus]).

    Python objects become records, attribute assignment becomes a record
    update, and every method is a computation in a small state-and-exception
    monad [M] threading the receiver ([self]) and the outside world.  The
    outside world is the log of HTTP GETs issued so far, the number of random
    host labels drawn, the heap of decoded payloads handed to callbacks, the
    log of callback invocations and the worker processes started.  What the
    local server answers and what [random.choices] returns are not decided by
    the program: they are the two fields of the class [Env].

    Scope of the model.  The methods of [SpotifyLocal] are modelled on a
    client object that has the attributes their bodies read, the HTTP
    session among them (it is the world): every statement about a method is
    over an arbitrary such client, never over what the constructor returns.
    The constructor is modelled on the class as it is written:
    [SpotifyLocal.__slots__] lists ["session"] while [__init__] assigns
    [self._session], so [SpotifyLocal()] raises.  The asynchronous class
    [SpotifyLocalAsync] is not modelled.  [skip] and [previous] only inject
    a media key and touch neither the session state nor the network; they
    are left out.  Running Python with assertions disabled is not
    modelled. *)

From stdpp Require Import base strings gmap list pretty.

Open Scope Z_scope.
Set Warnings "-register-all".

(* ------------------------------------------------------------------ *)
(** ** Values *)

(** A decoded JSON document, as [Response.json()] returns it.  A number that
    is not an integer is kept as its literal: floating point is not
    interpreted.  [JObj] is a [dict]; a key is looked up by first match. *)
Inductive Json : Type :=
  | JNull
  | JBool (b : bool)
  | JInt (z : Z)
  | JFloat (lit : string)
  | JStr (s : string)
  | JArr (l : list Json)
  | JObj (m : list (string * Json)).

(** The exceptions the modelled code can meet.  [ConnectionError] is the
    builtin one, raised by [_check_if_connected]; a failure of the transport
    is raised by [requests] as its own [RequestException], which is not a
    subclass of the builtin [ConnectionError]. *)
Inductive Error : Type :=
  | ConnectionError (msg : string)
  | RequestException
  | JSONDecodeError
  | KeyError (key : string)
  | TypeError
  | AttributeError (attr : string).

(** How a computation ends.  [OutOfFuel] is a computation that has not
    ended: the fuel bound put on the poller's unbounded [while] loop ran
    out, or a [join()] is still waiting for a worker that does not exit. *)
Inductive Outcome (A : Type) : Type :=
  | Ret (a : A)
  | Raise (e : Error)
  | OutOfFuel.
Arguments Ret {A} a.
Arguments Raise {A} e.
Arguments OutOfFuel {A}.

(** [d[k]] for a decoded document [d] and a string key [k]. *)
Fixpoint dict_get (m : list (string * Json)) (k : string) : option Json :=
  match m with
  | [] => None
  | (k', v) :: m' => if decide (k' = k) then Some v else dict_get m' k
  end.

Definition subscript (d : Json) (k : string) : Outcome Json :=
  match d with
  | JObj m => match dict_get m k with
              | Some v => Ret v
              | None => Raise (KeyError k)
              end
  | _ => Raise TypeError
  end.

(** [str(n)] for an [int]. *)
Definition str (n : Z) : string := pretty n.

(** One call of [Session.get(url=, params=, headers=)].  [req_headers] are
    the headers passed with the call ([∅] when the keyword is absent); the
    sessions are created with [requests.Session()] and never configured, so
    the library's default headers are all a session adds, and [Origin] is
    not among them. *)
Record Request : Type := {
  req_url : string;
  req_params : gmap string Json;
  req_headers : gmap string string
}.

(** A [requests.Response], of which the code only ever calls [.json()]:
    [None] when the body is not JSON. *)
Record Response : Type := { body : option Json }.

(** A reference to a decoded payload in the heap of the poller's process. *)
Definition loc : Type := nat.

(** A registered callback: a function of one argument, the payload.  It
    receives a reference and may read or mutate the heap behind it. *)
Record Callback : Type := {
  cb_name : string;
  cb_body : loc -> list Json -> list Json
}.

(** Modelled from the spec: [spotify_local/event.py] (class [Event]) is not
    among the sources.  The spec describes the event dispatcher as an ordered
    collection of callback references, with registration through an addition
    operator and invocation calling every registered callback with one
    argument, in registration order. *)
Abbreviation Event := (list Callback).

(** ** Objects *)

(** [UpdateStatus], the poller.  Its [session] attribute, a fresh
    [requests.Session()], is the world. *)
Record UpdateStatus : Type := {
  params : gmap string Json;
  headers : gmap string string;
  url : string;
  handlers : Event;
  wait : Z;
  _should_run : bool
}.

(** [SpotifyLocal], the control client.  [_oauth_token] and [_csrf_token] are
    only annotated in [__init__], not assigned: [None] is the unset
    attribute. *)
Record SpotifyLocal : Type := {
  _origin : gmap string string;
  _connected : bool;
  _oauth_token : option Json;
  _csrf_token : option Json;
  _process : option UpdateStatus;
  on_status_change : Event
}.

(** ** The world *)

Record World : Type := {
  sent : list Request;           (* GETs issued so far, oldest first *)
  drawn : nat;                   (* random host labels drawn so far *)
  store : list Json;             (* heap of decoded payloads *)
  calls : list (string * loc);   (* callback invocations, oldest first *)
  started : list UpdateStatus    (* worker processes started *)
}.

Definition log_request (q : Request) (w : World) : World :=
  {| sent := sent w ++ [q]; drawn := drawn w; store := store w;
     calls := calls w; started := started w |}.

Definition draw (w : World) : World :=
  {| sent := sent w; drawn := S (drawn w); store := store w;
     calls := calls w; started := started w |}.

Definition set_store (st : list Json) (w : World) : World :=
  {| sent := sent w; drawn := drawn w; store := st;
     calls := calls w; started := started w |}.

Definition log_call (c : string * loc) (w : World) : World :=
  {| sent := sent w; drawn := drawn w; store := store w;
     calls := calls w ++ [c]; started := started w |}.

Definition log_start (p : UpdateStatus) (w : World) : World :=
  {| sent := sent w; drawn := drawn w; store := store w;
     calls := calls w; started := started w ++ [p] |}.

(** What the program does not decide: the answer to a GET, given the GETs
    issued before it ([None]: the transport fails); the [k]-th label
    returned by [choices(ascii_lowercase, k=10)]; and whether the worker
    process behind a handle ever exits, so that a [join()] on it returns.
    The worker is another process with a copy of the flag of its own: what
    the client assigns to its handle does not reach it. *)
Class Env : Type := {
  server : list Request -> Request -> option Response;
  choices : nat -> string;
  exits : World -> UpdateStatus -> bool
}.

(** ** The monad *)

Definition M (St A : Type) : Type := St -> World -> Outcome A * St * World.

Definition ret {St A} (a : A) : M St A := fun s w => (Ret a, s, w).

Definition raise {St A} (e : Error) : M St A := fun s w => (Raise e, s, w).

Definition bind {St A B} (m : M St A) (k : A -> M St B) : M St B :=
  fun s w =>
    match m s w with
    | (Ret a, s', w') => k a s' w'
    | (Raise e, s', w') => (Raise e, s', w')
    | (OutOfFuel, s', w') => (OutOfFuel, s', w')
    end.

Definition gets {St A} (f : St -> A) : M St A := fun s w => (Ret (f s), s, w).

Definition modify {St} (f : St -> St) : M St unit := fun s w => (Ret tt, f s, w).

Definition lift {St A} (o : Outcome A) : M St A := fun s w => (o, s, w).

(** Reading an attribute that may be unset. *)
Definition getattr {St A} (f : St -> option A) (name : string) : M St A :=
  fun s w =>
    match f s with
    | Some a => (Ret a, s, w)
    | None => (Raise (AttributeError name), s, w)
    end.

Declare Scope py_scope.
Delimit Scope py_scope with py.
Notation "x <- m ;; k" := (bind m (fun x => k))
  (at level 100, m at next level, right associativity) : py_scope.
Notation "m ;;; k" := (bind m (fun _ => k))
  (at level 100, right associativity) : py_scope.
Open Scope py_scope.

(** [session.get(url=u, params=p, headers=h)]: the request is issued, then
    either a response comes back or the transport raises. *)
Definition session_get `{Env} {St} (u : string) (p : gmap string Json)
    (h : gmap string string) : M St Response :=
  fun s w =>
    let q := {| req_url := u; req_params := p; req_headers := h |} in
    match server (sent w) q with
    | Some r => (Ret r, s, log_request q w)
    | None => (Raise RequestException, s, log_request q w)
    end.

(** [r.json()], returned by value. *)
Definition json {St} (r : Response) : M St Json :=
  match body r with
  | Some j => ret j
  | None => raise JSONDecodeError
  end.

(** [j = r.json()] where the result is handed on by reference: the decoded
    document is a fresh object in the heap. *)
Definition alloc {St} (j : Json) : M St loc :=
  fun s w => (Ret (length (store w)), s, set_store (store w ++ [j]) w).

(* ------------------------------------------------------------------ *)
(** ** event.py *)

Module event.

(** Modelled from the spec: [Event()], a dispatcher with no callback. *)
Definition __init__ : Event := [].

(** Modelled from the spec: [Event.__iadd__], registration through the
    addition operator; the collection is ordered by registration. *)
Definition __iadd__ (self : Event) (handler : Callback) : Event :=
  self ++ [handler].

(** Modelled from the spec: one callback called with the one argument [j]. *)
Definition invoke {St} (f : Callback) (j : loc) : M St unit :=
  fun s w =>
    (Ret tt, s, set_store (cb_body f j (store w)) (log_call (cb_name f, j) w)).

(** Modelled from the spec: [Event.__call__], invocation, calling every
    registered callback with the one argument, in registration order. *)
Fixpoint __call__ {St} (self : Event) (j : loc) : M St unit :=
  match self with
  | [] => ret tt
  | f :: rest => invoke f j ;;; __call__ rest j
  end.

End event.

(* ------------------------------------------------------------------ *)
(** ** update_status.py *)

Module update_status.

Definition __init__ (handlers : Event) (params : gmap string Json)
    (headers : gmap string string) (url : string) (wait : Z) : UpdateStatus :=
  {| params := params; headers := headers; url := url;
     handlers := handlers; wait := wait; _should_run := true |}.

(** The property [should_run] and its setter. *)
Definition should_run (self : UpdateStatus) : bool := _should_run self.

Definition set_should_run (val : bool) (self : UpdateStatus) : UpdateStatus :=
  {| params := params self; headers := headers self; url := url self;
     handlers := handlers self; wait := wait self; _should_run := val |}.

(** [self.params[k] = v] *)
Definition setitem_params (k : string) (v : Json) (self : UpdateStatus)
    : UpdateStatus :=
  {| params := <[k := v]> (params self); headers := headers self;
     url := url self; handlers := handlers self; wait := wait self;
     _should_run := _should_run self |}.

Section with_env.
Context `{Env}.

(** The five statements of the body of the loop in [run]. *)

(** [self.params["returnon"] = "login,logout,play,pause,error,ap"] *)
Definition set_returnon : M UpdateStatus unit :=
  modify (setitem_params "returnon" (JStr "login,logout,play,pause,error,ap")).

(** [self.params["returnafter"] = str(self.wait)] *)
Definition set_returnafter : M UpdateStatus unit :=
  n <- gets wait ;;
  modify (setitem_params "returnafter" (JStr (str n))).

(** [r = self.session.get(url=self.url, params=self.params,
    headers=self.headers)] *)
Definition poll : M UpdateStatus Response :=
  u <- gets url ;;
  p <- gets params ;;
  h <- gets headers ;;
  session_get u p h.

(** [j = r.json()] *)
Definition decode (r : Response) : M UpdateStatus loc :=
  d <- json r ;;
  alloc d.

(** [self.handlers(j)] *)
Definition dispatch (j : loc) : M UpdateStatus unit :=
  hs <- gets handlers ;;
  event.__call__ hs j.

Definition iteration : M UpdateStatus unit :=
  set_returnon ;;;
  set_returnafter ;;;
  r <- poll ;;
  j <- decode r ;;
  dispatch j.

(** [run]: [while self.should_run: ...].  The loop has no bound of its
    own; [fuel] bounds the number of times the condition is evaluated. *)
Fixpoint run (fuel : nat) : M UpdateStatus unit :=
  match fuel with
  | O => lift OutOfFuel
  | S fuel' =>
      b <- gets should_run ;;
      if b then iteration ;;; run fuel' else ret tt
  end.

(** *** [run] as a machine

    The same loop, one statement (and, inside the dispatcher, one callback)
    per step, so that a write to the flag by another party can fall
    between any two steps. *)
Inductive Pc : Type :=
  | AtWhile                                   (* about to evaluate the condition *)
  | AtReturnOn
  | AtReturnAfter
  | AtGet
  | AtJson (r : Response)
  | AtHandlers (j : loc) (rest : list Callback)   (* callbacks still to call *)
  | Returned
  | Raised (e : Error).

Record Config : Type := { self : UpdateStatus; world : World; pc : Pc }.

Definition goto (p : Pc) (c : Config) : Config :=
  {| self := self c; world := world c; pc := p |}.

(** Run one statement and move on. *)
Definition advance {A} (m : M UpdateStatus A) (next : A -> Pc) (c : Config)
    : Config :=
  match m (self c) (world c) with
  | (Ret a, s, w) => {| self := s; world := w; pc := next a |}
  | (Raise e, s, w) => {| self := s; world := w; pc := Raised e |}
  | (OutOfFuel, _, _) => c
  end.

Definition step (c : Config) : Config :=
  match pc c with
  | AtWhile =>
      advance (gets should_run) (fun b : bool => if b then AtReturnOn else Returned) c
  | AtReturnOn => advance set_returnon (fun _ => AtReturnAfter) c
  | AtReturnAfter => advance set_returnafter (fun _ => AtGet) c
  | AtGet => advance poll AtJson c
  | AtJson r =>
      advance (j <- decode r ;; hs <- gets handlers ;; ret (j, hs))
              (fun jh => AtHandlers (fst jh) (snd jh)) c
  | AtHandlers j (f :: rest) =>
      advance (event.invoke f j) (fun _ => AtHandlers j rest) c
  | AtHandlers j [] => goto AtWhile c
  | Returned => c
  | Raised _ => c
  end.

(** What can happen next: the worker takes a step, or someone assigns
    [should_run]. *)
Inductive Action : Type :=
  | Tick
  | Write (val : bool).

Definition write (val : bool) (c : Config) : Config :=
  {| self := set_should_run val (self c); world := world c; pc := pc c |}.

Definition act (a : Action) (c : Config) : Config :=
  match a with
  | Tick => step c
  | Write val => write val c
  end.

Fixpoint exec (schedule : list Action) (c : Config) : Config :=
  match schedule with
  | [] => c
  | a :: rest => exec rest (act a c)
  end.

(** [n] steps of the worker with nobody else writing. *)
Fixpoint steps (n : nat) (c : Config) : Config :=
  match n with
  | O => c
  | S n' => steps n' (step c)
  end.

(** The number of steps the worker takes in a schedule. *)
Fixpoint ticks (schedule : list Action) : nat :=
  match schedule with
  | [] => O
  | Tick :: rest => S (ticks rest)
  | Write _ :: rest => ticks rest
  end.

(** The value of the flag after the writes of a schedule. *)
Fixpoint flag_after (schedule : list Action) (b : bool) : bool :=
  match schedule with
  | [] => b
  | Tick :: rest => flag_after rest b
  | Write val :: rest => flag_after rest val
  end.

End with_env.

End update_status.


(* ------------------------------------------------------------------ *)
(** ** core.py *)

Module core.

Definition DEFAULT_ORIGIN : gmap string string :=
  {["Origin" := "https://open.spotify.com"]}.

Definition DEFAULT_PORT : Z := 4381.

(** The message of the builtin [ConnectionError] raised when not connected. *)
Definition NOT_CONNECTED : string :=
  "Please either use with context, or call SpotifyLocal.connect() before calling this method.".

(** Attribute assignments. *)
Definition set_connected (v : bool) (self : SpotifyLocal) : SpotifyLocal :=
  {| _origin := _origin self; _connected := v;
     _oauth_token := _oauth_token self; _csrf_token := _csrf_token self;
     _process := _process self; on_status_change := on_status_change self |}.

Definition set_oauth_token (v : Json) (self : SpotifyLocal) : SpotifyLocal :=
  {| _origin := _origin self; _connected := _connected self;
     _oauth_token := Some v; _csrf_token := _csrf_token self;
     _process := _process self; on_status_change := on_status_change self |}.

Definition set_csrf_token (v : Json) (self : SpotifyLocal) : SpotifyLocal :=
  {| _origin := _origin self; _connected := _connected self;
     _oauth_token := _oauth_token self; _csrf_token := Some v;
     _process := _process self; on_status_change := on_status_change self |}.

Definition set_process (v : option UpdateStatus) (self : SpotifyLocal)
    : SpotifyLocal :=
  {| _origin := _origin self; _connected := _connected self;
     _oauth_token := _oauth_token self; _csrf_token := _csrf_token self;
     _process := v; on_status_change := on_status_change self |}.

Definition set_on_status_change (v : Event) (self : SpotifyLocal)
    : SpotifyLocal :=
  {| _origin := _origin self; _connected := _connected self;
     _oauth_token := _oauth_token self; _csrf_token := _csrf_token self;
     _process := _process self; on_status_change := v |}.

(** The [__slots__] of the class; it has no [__dict__]. *)
Definition __slots__ : list string :=
  ["session"; "_origin"; "_connected"; "_oauth_token"; "_csrf_token";
   "_process"; "on_status_change"].

(** [self.<name> = ...] on an instance of a class whose slots are [slots]:
    an attribute that is not a slot cannot be assigned. *)
Definition assign (slots : list string) (name : string) : Outcome unit :=
  if bool_decide (name ∈ slots) then Ret tt else Raise (AttributeError name).

(** The statements of [__init__] in order, on a class whose slots are
    [slots].  [self._oauth_token: str] and [self._csrf_token: str] are
    annotations without a value: they assign nothing. *)
Definition construct (slots : list string) : Outcome SpotifyLocal :=
  match assign slots "_session" with
  | Ret _ =>
    match assign slots "_origin" with
    | Ret _ =>
      match assign slots "_connected" with
      | Ret _ =>
        match assign slots "_process" with
        | Ret _ =>
          match assign slots "on_status_change" with
          | Ret _ =>
              Ret {| _origin := DEFAULT_ORIGIN; _connected := false;
                     _oauth_token := None; _csrf_token := None;
                     _process := None; on_status_change := event.__init__ |}
          | Raise e => Raise e
          | OutOfFuel => OutOfFuel
          end
        | Raise e => Raise e
        | OutOfFuel => OutOfFuel
        end
      | Raise e => Raise e
      | OutOfFuel => OutOfFuel
      end
    | Raise e => Raise e
    | OutOfFuel => OutOfFuel
    end
  | Raise e => Raise e
  | OutOfFuel => OutOfFuel
  end.

(** [SpotifyLocal()] *)
Definition __init__ : Outcome SpotifyLocal := construct __slots__.

Section with_env.
Context `{Env}.

(** The two [format] calls of [get_url], given the ten random letters. *)
Definition format_url (label url : string) : string :=
  let sub := label +:+ ".spotilocal.com" in
  "http://" +:+ sub +:+ ":" +:+ str DEFAULT_PORT +:+ url.

(** [get_url(url)]: ten random lowercase letters are drawn, then the URL is
    formatted. *)
Definition get_url {St} (url : string) : M St string :=
  fun s w => (Ret (format_url (choices (drawn w)) url), s, draw w).

(** [self._session.get(url=url, params=params, headers=self._origin)] *)
Definition _request (url : string) (params : gmap string Json)
    : M SpotifyLocal Response :=
  h <- gets _origin ;;
  session_get url params h.

(** [self._origin["Origin"]] *)
Definition origin_of (o : gmap string string) : Outcome string :=
  match o !! "Origin" with
  | Some v => Ret v
  | None => Raise (KeyError "Origin")
  end.

(** The request goes through [self._session.get(url=url)] directly: no
    [params], no [headers]. *)
Definition _get_oauth_token : M SpotifyLocal Json :=
  o <- gets _origin ;;
  origin <- lift (origin_of o) ;;
  r <- session_get (origin +:+ "/token") ∅ ∅ ;;
  d <- json r ;;
  lift (subscript d "t").

Definition _get_csrf_token : M SpotifyLocal Json :=
  url <- get_url "/simplecsrf/token.json" ;;
  r <- _request url ∅ ;;
  d <- json r ;;
  lift (subscript d "token").

Definition _check_if_connected : M SpotifyLocal unit :=
  c <- gets _connected ;;
  if c then ret tt else raise (ConnectionError NOT_CONNECTED).

Definition connect : M SpotifyLocal unit :=
  t <- _get_oauth_token ;;
  modify (set_oauth_token t) ;;;
  c <- _get_csrf_token ;;
  modify (set_csrf_token c) ;;;
  modify (set_connected true).

(** [proc.join()]: returns once the worker process has exited, and waits as
    long as it has not. *)
Definition join {St} (proc : UpdateStatus) : M St unit :=
  fun s w => if exits w proc then (Ret tt, s, w) else (OutOfFuel, s, w).

(** [disconnect]: with a worker, the flag of the client's handle on it is
    set to false, then [join()] waits for the worker; [_connected] is
    cleared only once that wait is over. *)
Definition disconnect : M SpotifyLocal unit :=
  p <- gets _process ;;
  match p with
  | Some proc =>
      modify (set_process (Some (update_status.set_should_run false proc))) ;;;
      join (update_status.set_should_run false proc)
  | None => ret tt
  end ;;;
  modify (set_connected false).

(** The property [version]. *)
Definition version : M SpotifyLocal Json :=
  url <- get_url "/service/version.json" ;;
  r <- _request url {["service" := JStr "remote"]} ;;
  json r.

Definition get_current_status : M SpotifyLocal Json :=
  _check_if_connected ;;;
  url <- get_url "/remote/status.json" ;;
  o <- getattr _oauth_token "_oauth_token" ;;
  c <- getattr _csrf_token "_csrf_token" ;;
  r <- _request url (<["csrf" := c]> {["oauth" := o]}) ;;
  json r.

Definition pause (pause : bool) : M SpotifyLocal unit :=
  _check_if_connected ;;;
  url <- get_url "/remote/pause.json" ;;
  o <- getattr _oauth_token "_oauth_token" ;;
  c <- getattr _csrf_token "_csrf_token" ;;
  _request url
    (<["pause" := JStr (if pause then "true" else "false")]>
       (<["csrf" := c]> {["oauth" := o]})) ;;;
  ret tt.

Definition unpause : M SpotifyLocal unit := pause false.

Definition playURI (uri : string) : M SpotifyLocal Json :=
  _check_if_connected ;;;
  url <- get_url "/remote/play.json" ;;
  o <- getattr _oauth_token "_oauth_token" ;;
  c <- getattr _csrf_token "_csrf_token" ;;
  r <- _request url
         (<["context" := JStr uri]>
            (<["uri" := JStr uri]> (<["csrf" := c]> {["oauth" := o]}))) ;;
  json r.

(** [Process.start()]: the worker is handed to the operating system. *)
Definition start {St} (p : UpdateStatus) : M St unit :=
  fun s w => (Ret tt, s, log_start p w).

Definition listen_for_events (wait : Z) : M SpotifyLocal unit :=
  _check_if_connected ;;;
  url <- get_url "/remote/status.json" ;;
  o <- getattr _oauth_token "_oauth_token" ;;
  c <- getattr _csrf_token "_csrf_token" ;;
  hs <- gets on_status_change ;;
  h <- gets _origin ;;
  let p := update_status.__init__ hs (<["csrf" := c]> {["oauth" := o]}) h url wait in
  modify (set_process (Some p)) ;;;
  start p.

(** [__enter__] and [__exit__]; closing the HTTP session changes none of the
    modelled state. *)
Definition __enter__ : M SpotifyLocal unit := connect.

Definition __exit__ : M SpotifyLocal unit := disconnect.

(** What a caller can do with a client, one call at a time.  [Enter] and
    [Exit] are the two ends of a [with] block; [Register f] is
    [s.on_status_change += f]. *)
Inductive Op : Type :=
  | Enter
  | Exit
  | Connect
  | Disconnect
  | Version
  | GetCurrentStatus
  | Pause (flag : bool)
  | Unpause
  | PlayURI (uri : string)
  | ListenForEvents (wait : Z)
  | Register (f : Callback).

Definition forget {A} (m : M SpotifyLocal A) : M SpotifyLocal unit :=
  m ;;; ret tt.

Definition perform (op : Op) : M SpotifyLocal unit :=
  match op with
  | Enter => __enter__
  | Exit => __exit__
  | Connect => connect
  | Disconnect => disconnect
  | Version => forget version
  | GetCurrentStatus => forget get_current_status
  | Pause flag => pause flag
  | Unpause => unpause
  | PlayURI uri => forget (playURI uri)
  | ListenForEvents wait => listen_for_events wait
  | Register f =>
      hs <- gets on_status_change ;;
      modify (set_on_status_change (event.__iadd__ hs f))
  end.

(** The client and the world after a sequence of calls, whatever each call
    returned or raised.  A call that does not return is followed like the
    others, from the state it is waiting in: that only adds clients. *)
Fixpoint after (ops : list Op) (s : SpotifyLocal) (w : World)
    : SpotifyLocal * World :=
  match ops with
  | [] => (s, w)
  | op :: rest =>
      match perform op s w with
      | (_, s', w') => after rest s' w'
      end
  end.

End with_env.

End core.


(* ------------------------------------------------------------------ *)
(** ** Vocabulary of the statements *)

Definition outcome {A St} (r : Outcome A * St * World) : Outcome A := fst (fst r).

Definition state {A St} (r : Outcome A * St * World) : St := snd (fst r).

Definition world_of {A St} (r : Outcome A * St * World) : World := snd r.

(** The call raised the builtin [ConnectionError]. *)
Definition raises_connection_error {A} (o : Outcome A) : bool :=
  match o with
  | Raise (ConnectionError _) => true
  | _ => false
  end.


(** The header every request is meant to carry. *)
Definition carries_origin (q : Request) : bool :=
  bool_decide (req_headers q !! "Origin" = Some "https://open.spotify.com").

(** Both tokens have been assigned. *)
Definition populated (s : SpotifyLocal) : Prop :=
  is_Some (_oauth_token s) ∧ is_Some (_csrf_token s).

(** The params of the three control calls that take tokens. *)
Definition status_params (o c : Json) : gmap string Json :=
  <["csrf" := c]> {["oauth" := o]}.

Definition pause_params (o c : Json) (v : string) : gmap string Json :=
  <["pause" := JStr v]> (<["csrf" := c]> {["oauth" := o]}).

Definition play_params (o c : Json) (uri : string) : gmap string Json :=
  <["context" := JStr uri]>
    (<["uri" := JStr uri]> (<["csrf" := c]> {["oauth" := o]})).

(** The GET a control call issues through [_request] in world [w]: to the
    freshly generated host, with the client's [_origin] as headers. *)
Definition control_request `{Env} (s : SpotifyLocal) (w : World)
    (path : string) (p : gmap string Json) : Request :=
  {| req_url := core.format_url (choices (drawn w)) path; req_params := p;
     req_headers := _origin s |}.

(** What [r.json()] gives for the answer to [q]. *)
Definition decoded_answer `{Env} (w : World) (q : Request) : Outcome Json :=
  match server (sent w) q with
  | Some r => match body r with
              | Some j => Ret j
              | None => Raise JSONDecodeError
              end
  | None => Raise RequestException
  end.

(** The field [k] of the decoded answer to [q]: [r.json()[k]]. *)
Definition fetched `{Env} (w : World) (q : Request) (k : string)
    : Outcome Json :=
  match decoded_answer w q with
  | Ret d => subscript d k
  | Raise e => Raise e
  | OutOfFuel => OutOfFuel
  end.

(** The GET of [_get_oauth_token] on a client whose origin is the default
    one: no params, no headers. *)
Definition oauth_request : Request :=
  {| req_url := "https://open.spotify.com/token"; req_params := ∅;
     req_headers := ∅ |}.

(** If connected, then both tokens are assigned. *)
Definition handshaken (s : SpotifyLocal) : Prop :=
  _connected s = true -> populated s.

(** The poller once the two assignments of an iteration are done. *)
Definition polled (self : UpdateStatus) : UpdateStatus :=
  update_status.setitem_params "returnafter" (JStr (str (wait self)))
    (update_status.setitem_params "returnon"
       (JStr "login,logout,play,pause,error,ap") self).

(** The GET an iteration of the poller issues. *)
Definition polling_request (self : UpdateStatus) : Request :=
  {| req_url := url self; req_params := params (polled self);
     req_headers := headers self |}.

(** The world after the GET of an iteration has been answered with a body
    decoding to [d]: the request is logged and [d] is a fresh object, at
    address [length (store w)]. *)
Definition answered (self : UpdateStatus) (d : Json) (w : World) : World :=
  set_store (store w ++ [d]) (log_request (polling_request self) w).

(** The worker does not evaluate the loop condition in any of its next [n]
    steps. *)
Fixpoint busy `{Env} (n : nat) (c : update_status.Config) : Prop :=
  match n with
  | O => True
  | S n' =>
      update_status.pc c <> update_status.AtWhile
      ∧ busy n' (update_status.step c)
  end.

(** The world once every callback of [hs] has been called with [j],
    first to last. *)
Definition fired (hs : Event) (j : loc) (w : World) : World :=
  foldl (fun w f =>
           set_store (cb_body f j (store w)) (log_call (cb_name f, j) w))
        w hs.

(** The GETs a call has added to the log. *)
Definition issued {A St} (w : World) (r : Outcome A * St * World)
    : list Request :=
  drop (length (sent w)) (sent (world_of r)).


(** What a client [s0] can have become: [s0] put through any sequence of
    calls. *)
Definition reachable_from `{Env} (s0 s : SpotifyLocal) : Prop :=
  exists (ops : list core.Op) (w0 : World), s = fst (core.after ops s0 w0).

(** The worker [listen_for_events(wait=n)] builds in world [w] on a client
    holding the tokens [o] and [c]. *)
Definition worker `{Env} (s : SpotifyLocal) (w : World) (o c : Json) (n : Z)
    : UpdateStatus :=
  {| params := status_params o c; headers := _origin s;
     url := core.format_url (choices (drawn w)) "/remote/status.json";
     handlers := on_status_change s; wait := n; _should_run := true |}.


(** What subscripting the decoded answer with [k] gives, case by case. *)
Definition field_of (answer : option Response) (k : string) : Outcome Json :=
  match answer with
  | None => Raise RequestException
  | Some r =>
      match body r with
      | None => Raise JSONDecodeError
      | Some (JObj m) =>
          match dict_get m k with
          | Some v => Ret v
          | None => Raise (KeyError k)
          end
      | Some _ => Raise TypeError
      end
  end.

(* ------------------------------------------------------------------ *)
(** ** Concrete environments and objects, used to exercise the statements *)

Definition TOKEN_URL : string := "https://open.spotify.com/token".

(** A local server that is up: the token endpoint answers [{"t": ...}],
    every other endpoint answers [{"token": ..., "playing": true}]. *)
Definition demo_env : Env := {|
  server := fun _ q =>
    if decide (req_url q = TOKEN_URL)
    then Some {| body := Some (JObj [("t", JStr "NAop3")]) |}
    else Some {| body := Some (JObj [("token", JStr "d41d8");
                                     ("playing", JBool true)]) |};
  choices := fun _ => "qwertyuiop";
  exits := fun _ _ => false
|}.


(** Nothing listens: every request fails in the transport. *)
Definition down_env : Env := {|
  server := fun _ _ => None;
  choices := fun _ => "qwertyuiop";
  exits := fun _ _ => false
|}.

(** A server answering with a body that is not JSON. *)
Definition garbled_env : Env := {|
  server := fun _ _ => Some {| body := None |};
  choices := fun _ => "qwertyuiop";
  exits := fun _ _ => false
|}.

Definition world0 : World :=
  {| sent := []; drawn := O; store := []; calls := []; started := [] |}.

(** A client that has not been connected: the default origin, no token
    assigned, no worker, no callback. *)
Definition unconnected_client : SpotifyLocal :=
  {| _origin := core.DEFAULT_ORIGIN; _connected := false;
     _oauth_token := None; _csrf_token := None;
     _process := None; on_status_change := [] |}.

(** A client after a successful handshake with [demo_env]. *)
Definition connected_client : SpotifyLocal :=
  {| _origin := core.DEFAULT_ORIGIN; _connected := true;
     _oauth_token := Some (JStr "NAop3"); _csrf_token := Some (JStr "d41d8");
     _process := None; on_status_change := [] |}.

(** Two callbacks: the first only looks, the second overwrites the payload
    it is given. *)
Definition logger : Callback :=
  {| cb_name := "logger"; cb_body := fun _ st => st |}.

Definition scrubber : Callback :=
  {| cb_name := "scrubber"; cb_body := fun j st => <[j := JNull]> st |}.

Definition demo_poller : UpdateStatus :=
  update_status.__init__ [logger; scrubber]
    (<["csrf" := JStr "d41d8"]> {["oauth" := JStr "NAop3"]})
    core.DEFAULT_ORIGIN
    "http://qwertyuiop.spotilocal.com:4381/remote/status.json" 60.

(** A client that went through [connect()] against [demo_env]. *)
Definition handshaken_client : SpotifyLocal :=
  fst (@core.after demo_env [core.Connect] unconnected_client world0).

Definition status_url : string :=
  "http://qwertyuiop.spotilocal.com:4381/remote/status.json".

(** The URLs [get_url] generates in these environments. *)
Definition pause_url : string :=
  "http://qwertyuiop.spotilocal.com:4381/remote/pause.json".


(** What [demo_env] answers on every endpoint but the token one. *)
Definition status_body : Json :=
  JObj [("token", JStr "d41d8"); ("playing", JBool true)].

(** The flag is cleared while the request is in flight, set again between
    the two callbacks, and cleared once more before the iteration is over. *)
Definition stop_schedule : list update_status.Action :=
  [update_status.Tick; update_status.Tick; update_status.Tick;
   update_status.Write false;
   update_status.Tick; update_status.Tick;
   update_status.Write true;
   update_status.Tick;
   update_status.Write false;
   update_status.Tick].

(* ------------------------------------------------------------------ *)
(** * Properties of the control client *)

(** Unfold the monad and the methods down to the case analyses they make. *)
Ltac unfold_client :=
  unfold core.unpause, core.pause, core.get_current_status, core.playURI,
    core.listen_for_events, core.version, core.connect, core.disconnect,
    core._get_csrf_token, core._get_oauth_token, core._check_if_connected,
    core._request, core.get_url, core.start, core.forget, core.origin_of,
    core.join, outcome, state, world_of,
    session_get, json, getattr, bind, ret, raise, gets, modify, lift in *.

Ltac crush_client :=
  unfold_client; cbn;
  repeat (case_match; simplify_eq; cbn in * ); try done.

Section client.
Context `{Env}.

Lemma check_if_connected_false (s : SpotifyLocal) (w : World) :
  _connected s = false ->
  core._check_if_connected s w
  = (Raise (ConnectionError core.NOT_CONNECTED), s, w).
Proof. intros Hc. unfold core._check_if_connected, bind, gets. by rewrite Hc. Qed.

Lemma check_if_connected_true (s : SpotifyLocal) (w : World) :
  _connected s = true -> core._check_if_connected s w = (Ret tt, s, w).
Proof. intros Hc. unfold core._check_if_connected, bind, gets. by rewrite Hc. Qed.

(** C1. Each control call that requires a connection ([get_current_status],
    [pause], [unpause], [playURI], [listen_for_events]), on a client whose
    [_connected] is false, raises the builtin [ConnectionError] and leaves
    the client and the world as they were: no request has been issued, no
    host label drawn, no worker started.  On a client whose [_connected] is
    true none of them raises that error. *)
Theorem C1_connection_required (s : SpotifyLocal) (w : World)
    (flag : bool) (uri : string) (n : Z) :
  if _connected s then
    raises_connection_error (outcome (core.get_current_status s w)) = false
    ∧ raises_connection_error (outcome (core.pause flag s w)) = false
    ∧ raises_connection_error (outcome (core.unpause s w)) = false
    ∧ raises_connection_error (outcome (core.playURI uri s w)) = false
    ∧ raises_connection_error (outcome (core.listen_for_events n s w)) = false
  else
    core.get_current_status s w
      = (Raise (ConnectionError core.NOT_CONNECTED), s, w)
    ∧ core.pause flag s w = (Raise (ConnectionError core.NOT_CONNECTED), s, w)
    ∧ core.unpause s w = (Raise (ConnectionError core.NOT_CONNECTED), s, w)
    ∧ core.playURI uri s w = (Raise (ConnectionError core.NOT_CONNECTED), s, w)
    ∧ core.listen_for_events n s w
      = (Raise (ConnectionError core.NOT_CONNECTED), s, w).
Proof.
  destruct (_connected s) eqn:Hc.
  - repeat split; crush_client.
  - repeat split; unfold core.unpause, core.pause, core.get_current_status,
      core.playURI, core.listen_for_events, bind;
      by rewrite (check_if_connected_false _ _ Hc).
Qed.

(** C8. On a connected client with both tokens assigned, [pause(True)]
    issues one GET, to [/remote/pause.json], whose [pause] parameter is the
    string ["true"]; [pause(False)] and [unpause()] issue one whose [pause]
    parameter is ["false"]; [unpause] is [pause(False)].  On a client that is
    not connected both raise the builtin [ConnectionError] without issuing a
    request. *)
Theorem C8_pause_parameter (s : SpotifyLocal) (w : World) :
  core.unpause = core.pause false
  ∧ if _connected s then
      forall o c : Json,
        _oauth_token s = Some o -> _csrf_token s = Some c ->
        let q v := control_request s w "/remote/pause.json" (pause_params o c v) in
        world_of (core.pause true s w) = log_request (q "true") (draw w)
        ∧ req_params (q "true") !! "pause" = Some (JStr "true")
        ∧ world_of (core.pause false s w) = log_request (q "false") (draw w)
        ∧ world_of (core.unpause s w) = log_request (q "false") (draw w)
        ∧ req_params (q "false") !! "pause" = Some (JStr "false")
    else
      (forall flag : bool,
         core.pause flag s w = (Raise (ConnectionError core.NOT_CONNECTED), s, w))
      ∧ core.unpause s w = (Raise (ConnectionError core.NOT_CONNECTED), s, w).
Proof.
  split; [reflexivity |].
  destruct (_connected s) eqn:Hc.
  - intros o c Ho Hs q.
    repeat split; try by (unfold q, control_request, pause_params; cbn;
                          simplify_map_eq).
    all: unfold core.unpause, core.pause, bind;
      rewrite (check_if_connected_true _ _ Hc);
      unfold_client; cbn; rewrite Ho, Hs; cbn;
      by destruct (server _ _).
  - split; [intros flag |]; unfold core.unpause, core.pause, bind;
      by rewrite (check_if_connected_false _ _ Hc).
Qed.

(** C9. Reading [version] never consults [_connected]: on every client,
    connected or not, it draws a host, issues its GET to
    [/service/version.json] with [service=remote] and returns the decoded
    body (or raises what the transport or the decoder raised); it never
    raises the builtin [ConnectionError]. *)
Theorem C9_version_unguarded (s : SpotifyLocal) (w : World) :
  let q := control_request s w "/service/version.json"
             {["service" := JStr "remote"]} in
  core.version s w = (decoded_answer w q, s, log_request q (draw w))
  ∧ raises_connection_error (outcome (core.version s w)) = false.
Proof.
  intros q.
  assert (core.version s w = (decoded_answer w q, s, log_request q (draw w)))
    as Hv.
  { unfold decoded_answer, q, control_request. crush_client. }
  split; [exact Hv |].
  rewrite Hv. unfold outcome, decoded_answer; cbn.
  by repeat case_match.
Qed.

(** C10. On a connected client, [get_current_status], [pause], [unpause] and
    [playURI] leave the client as it was, whatever they return or raise: in
    particular [_oauth_token], [_csrf_token] and [_connected] are the same
    before and after.  With both tokens assigned, [playURI(uri)] issues one
    GET, to [/remote/play.json], whose [context] parameter (and whose [uri]
    parameter) is [uri]. *)
Theorem C10_control_calls_frame (s : SpotifyLocal) (w : World)
    (flag : bool) (uri : string) :
  _connected s = true ->
  state (core.get_current_status s w) = s
  ∧ state (core.pause flag s w) = s
  ∧ state (core.unpause s w) = s
  ∧ state (core.playURI uri s w) = s
  ∧ forall o c : Json,
      _oauth_token s = Some o -> _csrf_token s = Some c ->
      let q := control_request s w "/remote/play.json" (play_params o c uri) in
      core.playURI uri s w = (decoded_answer w q, s, log_request q (draw w))
      ∧ req_params q !! "context" = Some (JStr uri)
      ∧ req_params q !! "uri" = Some (JStr uri).
Proof.
  intros Hc.
  split; [by crush_client |].
  split; [by crush_client |].
  split; [by crush_client |].
  split; [by crush_client |].
  intros o c Ho Hs q.
  split; [| split; unfold q, control_request, play_params; cbn;
              by simplify_map_eq].
  unfold core.playURI, bind. rewrite (check_if_connected_true _ _ Hc).
  unfold q, decoded_answer, control_request, play_params.
  unfold_client; cbn. rewrite Ho, Hs; cbn.
  by destruct (server _ _) as [[[j|]]|].
Qed.

Lemma perform_handshaken (op : core.Op) (s : SpotifyLocal) (w : World) :
  handshaken s -> handshaken (state (core.perform op s w)).
Proof.
  unfold handshaken, populated. intros Hs.
  destruct op; unfold core.perform, core.__enter__, core.__exit__, core.connect;
    unfold_client; cbn;
    repeat case_match; simplify_eq; cbn in *; try done; eauto.
  all: intros Hc; destruct (Hs Hc) as [_ Hcsrf]; split; [by eexists | done].
Qed.

Lemma after_handshaken (ops : list core.Op) (s : SpotifyLocal) (w : World) :
  handshaken s -> handshaken (fst (core.after ops s w)).
Proof.
  revert s w. induction ops as [| op ops IH]; intros s w Hs; [exact Hs |].
  cbn. pose proof (perform_handshaken op s w Hs) as Hp.
  destruct (core.perform op s w) as [[o s'] w']. by apply IH.
Qed.

(** No call changes [_origin]. *)
Lemma perform_origin (op : core.Op) (s : SpotifyLocal) (w : World) :
  _origin (state (core.perform op s w)) = _origin s.
Proof.
  destruct op; unfold core.perform, core.__enter__, core.__exit__, core.connect;
    unfold_client; cbn;
    repeat case_match; simplify_eq; cbn in *; done.
Qed.

Lemma after_origin (ops : list core.Op) (s : SpotifyLocal) (w : World) :
  _origin (fst (core.after ops s w)) = _origin s.
Proof.
  revert s w. induction ops as [| op ops IH]; intros s w; [done |].
  cbn. pose proof (perform_origin op s w) as Hp.
  destruct (core.perform op s w) as [[o s'] w'].
  rewrite IH. exact Hp.
Qed.

(** [get_current_status] on a connected client with both tokens assigned:
    one GET with the two tokens, the decoded body returned as it is. *)
Lemma get_current_status_unfold (s : SpotifyLocal) (w : World) (o c : Json) :
  _connected s = true ->
  _oauth_token s = Some o ->
  _csrf_token s = Some c ->
  let q := control_request s w "/remote/status.json" (status_params o c) in
  core.get_current_status s w = (decoded_answer w q, s, log_request q (draw w)).
Proof.
  intros Hc Ho Hs q. unfold core.get_current_status, bind.
  rewrite (check_if_connected_true _ _ Hc).
  unfold q, decoded_answer, control_request, status_params.
  unfold_client; cbn. rewrite Ho, Hs; cbn.
  by destruct (server _ _) as [[[j|]]|].
Qed.

(** The two fetches of the handshake, spelled out. *)
Lemma get_oauth_token_unfold (s : SpotifyLocal) (w : World) :
  _origin s = core.DEFAULT_ORIGIN ->
  core._get_oauth_token s w
  = (fetched w oauth_request "t", s, log_request oauth_request w).
Proof.
  intros Ho. unfold fetched, decoded_answer, oauth_request.
  unfold_client. rewrite Ho. unfold core.DEFAULT_ORIGIN.
  rewrite lookup_singleton_eq. cbn.
  by destruct (server _ _) as [[[d|]]|].
Qed.

Lemma get_csrf_token_unfold (s : SpotifyLocal) (w : World) :
  let q := control_request s w "/simplecsrf/token.json" ∅ in
  core._get_csrf_token s w = (fetched w q "token", s, log_request q (draw w)).
Proof.
  intros q. unfold q, fetched, decoded_answer, control_request.
  unfold_client. cbn.
  by destruct (server _ _) as [[[d|]]|].
Qed.

(** [connect] spelled out: the two GETs in order, and what is stored. *)
Lemma connect_unfold (s : SpotifyLocal) (w : World) :
  _origin s = core.DEFAULT_ORIGIN ->
  let w1 := log_request oauth_request w in
  let q2 := control_request s w1 "/simplecsrf/token.json" ∅ in
  let w2 := log_request q2 (draw w1) in
  core.connect s w
  = match fetched w oauth_request "t" with
    | Ret t =>
        match fetched w1 q2 "token" with
        | Ret c =>
            (Ret tt,
             core.set_connected true
               (core.set_csrf_token c (core.set_oauth_token t s)), w2)
        | Raise e => (Raise e, core.set_oauth_token t s, w2)
        | OutOfFuel => (OutOfFuel, core.set_oauth_token t s, w2)
        end
    | Raise e => (Raise e, s, w1)
    | OutOfFuel => (OutOfFuel, s, w1)
    end.
Proof.
  intros Ho w1 q2 w2. unfold core.connect, bind at 1.
  rewrite (get_oauth_token_unfold s w Ho).
  destruct (fetched w oauth_request "t") as [t| |]; try done.
  unfold bind, modify. rewrite get_csrf_token_unfold.
  fold w1. change (control_request (core.set_oauth_token t s) w1) with
    (control_request s w1). fold q2. fold w2.
  by destruct (fetched w1 q2 "token").
Qed.


(** Every GET issued through [_request] carries the client's [_origin] as
    its headers. *)
Lemma request_headers (u : string) (p : gmap string Json)
    (s : SpotifyLocal) (w : World) :
  world_of (core._request u p s w)
  = log_request {| req_url := u; req_params := p; req_headers := _origin s |} w.
Proof. unfold_client. by destruct (server _ _). Qed.

(** The worker started by [listen_for_events] polls with the client's
    [_origin] as its headers. *)
Lemma listen_headers (n : Z) (s : SpotifyLocal) (w : World) (p : UpdateStatus) :
  _process (state (core.listen_for_events n s w)) = Some p ->
  _process s = None ->
  headers p = _origin s.
Proof.
  unfold_client; cbn. intros Hp Hn.
  repeat (case_match; simplify_eq; cbn in * ); try congruence.
Qed.

(** With the default origin, what goes through [_request] and what the
    poller sends carry the header. *)
Lemma control_request_carries_origin (s : SpotifyLocal) (w : World)
    (path : string) (p : gmap string Json) :
  _origin s = core.DEFAULT_ORIGIN ->
  carries_origin (control_request s w path p) = true.
Proof. intros Ho. unfold carries_origin, control_request; cbn. by rewrite Ho. Qed.

Lemma polling_request_carries_origin (self : UpdateStatus) :
  headers self = core.DEFAULT_ORIGIN ->
  carries_origin (polling_request self) = true.
Proof. intros Ho. unfold carries_origin, polling_request; cbn. by rewrite Ho. Qed.


End client.

(* ------------------------------------------------------------------ *)
(** * Properties of the status poller *)

Section poller.
Context `{Env}.

Import update_status.

Lemma fired_cons (f : Callback) (hs : Event) (j : loc) (w : World) :
  fired (f :: hs) j w
  = fired hs j (set_store (cb_body f j (store w)) (log_call (cb_name f, j) w)).
Proof. reflexivity. Qed.

(** The dispatcher never fails and does what [fired] says. *)
Lemma call_fired {St} (hs : Event) (j : loc) (s : St) (w : World) :
  event.__call__ hs j s w = (Ret tt, s, fired hs j w).
Proof.
  revert w. induction hs as [| f hs IH]; intros w; [done |].
  rewrite fired_cons, <- IH. reflexivity.
Qed.

Lemma fired_calls (hs : Event) (j : loc) (w : World) :
  calls (fired hs j w) = calls w ++ map (fun f => (cb_name f, j)) hs.
Proof.
  revert w. induction hs as [| f hs IH]; intros w.
  - cbn. by rewrite app_nil_r.
  - rewrite fired_cons, IH. cbn. by rewrite <- app_assoc.
Qed.

Lemma fired_sent (hs : Event) (j : loc) (w : World) :
  sent (fired hs j w) = sent w.
Proof.
  revert w. induction hs as [| f hs IH]; intros w; [done |].
  by rewrite fired_cons, IH.
Qed.

(** One iteration, spelled out. *)
Lemma iteration_unfold (self : UpdateStatus) (w : World) :
  iteration self w
  = match server (sent w) (polling_request self) with
    | None =>
        (Raise RequestException, polled self,
         log_request (polling_request self) w)
    | Some r =>
        match body r with
        | None =>
            (Raise JSONDecodeError, polled self,
             log_request (polling_request self) w)
        | Some d =>
            (Ret tt, polled self,
             fired (handlers self) (length (store w)) (answered self d w))
        end
    end.
Proof.
  unfold iteration, set_returnon, set_returnafter, poll, decode, dispatch,
    session_get, json, alloc, bind, gets, modify, ret, raise.
  cbn. fold (polled self). fold (polling_request self).
  destruct (server _ _) as [[[d|]]|]; cbn; try done.
  by rewrite call_fired.
Qed.

Lemma iteration_sent (self : UpdateStatus) (w : World) :
  sent (world_of (iteration self w)) = sent w ++ [polling_request self].
Proof.
  rewrite iteration_unfold.
  destruct (server _ _) as [[[d|]]|]; unfold world_of; cbn; try done.
  by rewrite fired_sent.
Qed.

(** [run] only ever adds to the log of requests. *)
Lemma run_sent (fuel : nat) (self : UpdateStatus) (w : World) :
  (length (sent w) <= length (sent (world_of (run fuel self w))))%nat.
Proof.
  revert self w. induction fuel as [| fuel IH]; intros self w; [done |].
  cbn. unfold bind at 1, gets. destruct (should_run self); [| done].
  unfold bind. pose proof (iteration_sent self w) as Hs.
  destruct (iteration self w) as [[[[]| |] s'] w']; unfold world_of in *;
    cbn in *; try (rewrite Hs, length_app; cbn; lia).
  etrans; [| apply IH]. rewrite Hs, length_app. cbn. lia.
Qed.

Lemma run_stops (fuel : nat) (self : UpdateStatus) (w : World) :
  should_run self = false -> run (S fuel) self w = (Ret tt, self, w).
Proof. intros Hf. cbn. unfold bind, gets. by rewrite Hf. Qed.

Lemma run_continues (fuel : nat) (self : UpdateStatus) (w : World) :
  should_run self = true ->
  run (S fuel) self w = (iteration ;;; run fuel) self w.
Proof. intros Hf. cbn. unfold bind at 1, gets. by rewrite Hf. Qed.

(** C2. While the flag is true, an iteration of [run] assigns
    [params["returnon"]] the fixed list and [params["returnafter"]] the
    string form of [wait], issues one GET to [self.url] with these params
    and [self.headers], decodes the body, calls the handlers with the
    decoded payload, and goes back to evaluating the flag; evaluating the
    flag ends [run], with nothing more done, exactly when it is false.
    What one pass through the loop has done is read off [run 1], the loop
    stopped when it is back at its condition. *)
Theorem C2_run_iteration (fuel : nat) (self : UpdateStatus) (w : World)
    (r : Response) (d : Json) :
  should_run self = true ->
  server (sent w) (polling_request self) = Some r ->
  body r = Some d ->
  let q := polling_request self in
  let j := length (store w) in
  let w' := fired (handlers self) j (answered self d w) in
  let once := run 1 self w in
  run (S fuel) self w = run fuel (polled self) w'
  ∧ req_params q !! "returnon" = Some (JStr "login,logout,play,pause,error,ap")
  ∧ req_params q !! "returnafter" = Some (JStr (str (wait self)))
  ∧ req_url q = url self
  ∧ req_headers q = headers self
  ∧ sent w' = sent w ++ [q]
  ∧ store (answered self d w) !! j = Some d
  ∧ calls w' = calls w ++ map (fun f => (cb_name f, j)) (handlers self)
  ∧ (forall (fuel0 : nat) (self0 : UpdateStatus) (w0 : World),
       run (S fuel0) self0 w0 = (Ret tt, self0, w0) <-> should_run self0 = false)
  ∧ iteration self w = (Ret tt, polled self, w')
  ∧ once = (OutOfFuel, polled self, w')
  ∧ params (state once)
    = <["returnafter" := JStr (str (wait self))]>
        (<["returnon" := JStr "login,logout,play,pause,error,ap"]>
           (params self))
  ∧ url (state once) = url self
  ∧ headers (state once) = headers self
  ∧ handlers (state once) = handlers self
  ∧ wait (state once) = wait self
  ∧ sent (world_of once)
    = sent w ++ [{| req_url := url self; req_params := params (state once);
                    req_headers := headers self |}]
  ∧ calls (world_of once)
    = calls w ++ map (fun f => (cb_name f, length (store w))) (handlers self).
Proof.
  intros Hf Hr Hd q j w' once.
  assert (iteration self w = (Ret tt, polled self, w')) as Hit
    by by rewrite iteration_unfold, Hr, Hd.
  assert (once = (OutOfFuel, polled self, w')) as Honce.
  { unfold once. rewrite run_continues by done. unfold bind. by rewrite Hit. }
  split.
  { rewrite run_continues by done. unfold bind. by rewrite Hit. }
  split; [by cbn; simplify_map_eq |].
  split; [by cbn; simplify_map_eq |].
  split; [done |]. split; [done |].
  split; [by unfold w'; rewrite fired_sent |].
  split; [by cbn; apply list_lookup_middle |].
  split; [by unfold w'; rewrite fired_calls |].
  split.
  { intros fuel0 self0 w0. split; [| apply run_stops].
    intros Hrun. destruct (should_run self0) eqn:Hf0; [exfalso | done].
    rewrite run_continues in Hrun by done. unfold bind in Hrun.
    pose proof (iteration_sent self0 w0) as Hs.
    destruct (iteration self0 w0) as [[[[]| |] s1] w1]; try done.
    pose proof (run_sent fuel0 s1 w1) as Hm. rewrite Hrun in Hm.
    unfold world_of in *; cbn in *. rewrite Hs, length_app in Hm. cbn in Hm.
    lia. }
  split; [exact Hit |]. split; [exact Honce |].
  rewrite Honce. unfold state, world_of; cbn [fst snd].
  split; [done |]. split; [done |]. split; [done |]. split; [done |].
  split; [done |]. split.
  - unfold w'. by rewrite fired_sent.
  - unfold w'. by rewrite fired_calls.
Qed.

(** Registering [fs] one after the other adds them at the end, in order. *)
Lemma registered_in_order (fs : list Callback) (e : Event) :
  foldl event.__iadd__ e fs = e ++ fs.
Proof.
  revert e. induction fs as [| f fs IH]; intros e; cbn.
  - by rewrite app_nil_r.
  - rewrite IH. unfold event.__iadd__. by rewrite <- app_assoc.
Qed.

(** C3. With the callbacks [fs] registered in that order, an iteration whose
    answer decodes to [d] calls them all, each once, first registered first:
    the invocations logged by the iteration are exactly one per element of
    [fs], in the order of [fs], and all of them receive the same reference
    [j], the fresh object holding [d] when the dispatch begins. *)
Theorem C3_dispatch_in_order (fs : list Callback) (self : UpdateStatus)
    (w : World) (r : Response) (d : Json) :
  handlers self = foldl event.__iadd__ event.__init__ fs ->
  server (sent w) (polling_request self) = Some r ->
  body r = Some d ->
  let j := length (store w) in
  let w' := fired fs j (answered self d w) in
  iteration self w = (Ret tt, polled self, w')
  ∧ store (answered self d w) !! j = Some d
  ∧ calls w' = calls w ++ map (fun f => (cb_name f, j)) fs
  ∧ length (calls w') = (length (calls w) + length fs)%nat.
Proof.
  intros Hh Hr Hd j w'.
  rewrite registered_in_order in Hh. cbn in Hh.
  split; [by rewrite iteration_unfold, Hr, Hd, Hh |].
  split; [by cbn; apply list_lookup_middle |].
  assert (calls w' = calls w ++ map (fun f => (cb_name f, j)) fs) as Hc.
  { unfold w'. by rewrite fired_calls. }
  split; [exact Hc |]. by rewrite Hc, length_app, length_map.
Qed.

(** C7. When the GET of an iteration fails in the transport, or its body is
    not JSON, [run] ends there with that exception, whatever fuel is left:
    nothing in the loop catches it.  The flag is still true, the failed GET
    is the last request issued (no second attempt) and no handler has been
    called. *)
Theorem C7_errors_propagate (fuel : nat) (self : UpdateStatus) (w : World) :
  should_run self = true ->
  let q := polling_request self in
  (server (sent w) q = None ->
     run (S fuel) self w = (Raise RequestException, polled self, log_request q w))
  ∧ (forall r : Response,
       server (sent w) q = Some r -> body r = None ->
       run (S fuel) self w
       = (Raise JSONDecodeError, polled self, log_request q w))
  ∧ should_run (polled self) = true
  ∧ sent (log_request q w) = sent w ++ [q]
  ∧ calls (log_request q w) = calls w.
Proof.
  intros Hf q. unfold q. split; [| split; [| by rewrite <- Hf]].
  - intros Hr. rewrite run_continues by done. unfold bind.
    by rewrite iteration_unfold, Hr.
  - intros r Hr Hb. rewrite run_continues by done. unfold bind.
    by rewrite iteration_unfold, Hr, Hb.
Qed.

(** *** The loop as a machine *)

(** Away from the loop condition, a step of the worker does not look at the
    flag: it commutes with a write. *)
Lemma step_write (val : bool) (c : Config) :
  pc c <> AtWhile -> step (write val c) = write val (step c).
Proof.
  destruct c as [s w p]. destruct p as [| | | | r | j [| f rest] | |];
    intros Hp; try done.
  - unfold step, write, advance, poll, session_get, bind, gets; cbn.
    by destruct (server _ _).
  - unfold step, write, advance, decode, json, alloc, bind, gets, ret, raise;
      cbn.
    by destruct (body r).
Qed.

Lemma steps_write (n : nat) (val : bool) (c : Config) :
  busy n c -> steps n (write val c) = write val (steps n c).
Proof.
  revert c. induction n as [| n IH]; intros c; [done |].
  intros [Hp Hb]. cbn. rewrite step_write by done. by apply IH.
Qed.

Lemma busy_write (n : nat) (val : bool) (c : Config) :
  busy n c -> busy n (write val c).
Proof.
  revert c. induction n as [| n IH]; intros c; [done |].
  intros [Hp Hb]. split; [done |]. rewrite step_write by done. by apply IH.
Qed.

(** The worker itself never assigns the flag. *)
Lemma step_flag (c : Config) :
  should_run (self (step c)) = should_run (self c).
Proof.
  destruct c as [s w p]. destruct p as [| | | | r | j [| f rest] | |];
    try done.
  - unfold step, advance, poll, session_get, bind, gets; cbn.
    by destruct (server _ _).
  - unfold step, advance, decode, json, alloc, bind, gets, ret, raise; cbn.
    by destruct (body r).
Qed.

Lemma steps_flag (n : nat) (c : Config) :
  should_run (self (steps n c)) = should_run (self c).
Proof.
  revert c. induction n as [| n IH]; intros c; [done |].
  cbn. by rewrite IH, step_flag.
Qed.

Lemma write_same (c : Config) : write (should_run (self c)) c = c.
Proof. by destruct c as [[] w p]. Qed.

Lemma write_write (v v' : bool) (c : Config) :
  write v (write v' c) = write v c.
Proof. done. Qed.

(** However writes are interleaved with steps that stay away from the loop
    condition, the outcome is that of the steps alone, with the flag as the
    writes leave it. *)
Lemma exec_interleaved (schedule : list Action) (c : Config) :
  busy (ticks schedule) c ->
  exec schedule c
  = write (flag_after schedule (should_run (self c)))
      (steps (ticks schedule) c).
Proof.
  revert c. induction schedule as [| [| val] rest IH]; intros c Hb.
  - cbn. by rewrite write_same.
  - destruct Hb as [Hp Hb]. cbn. rewrite IH by done. by rewrite step_flag.
  - cbn in *. rewrite IH by by apply busy_write.
    by rewrite steps_write.
Qed.

Lemma exec_app (pre post : list Action) (c : Config) :
  exec (pre ++ post) c = exec post (exec pre c).
Proof. revert c. induction pre as [| a pre IH]; intros c; [done |]. apply IH. Qed.

(** Once [run] has returned, it has returned. *)
Lemma exec_returned (schedule : list Action) (c : Config) :
  pc c = Returned -> pc (exec schedule c) = Returned.
Proof.
  revert c. induction schedule as [| [| val] rest IH]; intros c Hp; [done | |].
  - apply IH. unfold act, step. by rewrite Hp.
  - by apply IH.
Qed.

Lemma steps_raised (n : nat) (s : UpdateStatus) (w : World) (e : Error) :
  steps n {| self := s; world := w; pc := Raised e |}
  = {| self := s; world := w; pc := Raised e |}.
Proof. induction n as [| n IH]; [done |]. exact IH. Qed.

(** The dispatcher, one callback per step, then back to the condition. *)
Lemma steps_handlers (rest : list Callback) (j : loc)
    (s : UpdateStatus) (w : World) :
  let c := {| self := s; world := w; pc := AtHandlers j rest |} in
  steps (S (length rest)) c
  = {| self := s; world := fired rest j w; pc := AtWhile |}
  ∧ busy (S (length rest)) c.
Proof.
  revert w. induction rest as [| f rest IH]; intros w; [done |].
  destruct (IH (set_store (cb_body f j (store w)) (log_call (cb_name f, j) w)))
    as [Hs Hb].
  split; [exact Hs | split; [done | exact Hb]].
Qed.

(** The first four steps of an iteration. *)
Lemma step_assignments (s : UpdateStatus) (w : World) :
  step {| self := s; world := w; pc := AtReturnOn |}
  = {| self := setitem_params "returnon"
                 (JStr "login,logout,play,pause,error,ap") s;
       world := w; pc := AtReturnAfter |}
  ∧ step (step {| self := s; world := w; pc := AtReturnOn |})
    = {| self := polled s; world := w; pc := AtGet |}.
Proof. split; reflexivity. Qed.

Lemma step_get (s : UpdateStatus) (w : World) :
  step {| self := polled s; world := w; pc := AtGet |}
  = {| self := polled s; world := log_request (polling_request s) w;
       pc := match server (sent w) (polling_request s) with
             | Some r => AtJson r
             | None => Raised RequestException
             end |}.
Proof.
  unfold step, advance, poll, session_get, bind, gets; cbn.
  fold (polled s). fold (polling_request s).
  by destruct (server _ _).
Qed.

Lemma step_json (s : UpdateStatus) (w : World) (r : Response) :
  step {| self := s; world := w; pc := AtJson r |}
  = match body r with
    | Some d =>
        {| self := s; world := set_store (store w ++ [d]) w;
           pc := AtHandlers (length (store w)) (handlers s) |}
    | None => {| self := s; world := w; pc := Raised JSONDecodeError |}
    end.
Proof.
  unfold step, advance, decode, json, alloc, bind, gets, ret, raise; cbn.
  by destruct (body r).
Qed.

(** The machine and [iteration] agree: started after the condition, the
    machine reaches the next evaluation of the condition, or the exception,
    with the poller and the world [iteration] gives. *)
Lemma machine_iteration (s : UpdateStatus) (w : World) :
  let c := {| self := s; world := w; pc := AtReturnOn |} in
  steps (5 + length (handlers s)) c
  = match iteration s w with
    | (Ret _, s', w') => {| self := s'; world := w'; pc := AtWhile |}
    | (Raise e, s', w') => {| self := s'; world := w'; pc := Raised e |}
    | (OutOfFuel, _, _) => c
    end.
Proof.
  intros c. rewrite iteration_unfold. unfold c.
  change (5 + length (handlers s))%nat
    with (S (S (S (S (S (length (handlers s))))))).
  cbn [steps]. rewrite (proj2 (step_assignments s w)), step_get.
  destruct (server _ _) as [r|]; [| apply steps_raised].
  rewrite step_json. destruct (body r) as [d|]; [| apply steps_raised].
  apply (steps_handlers (handlers s) (length (store w)) (polled s)).
Qed.

Lemma busy_iteration (s : UpdateStatus) (w : World) (r : Response) (d : Json) :
  server (sent w) (polling_request s) = Some r ->
  body r = Some d ->
  busy (5 + length (handlers s)) {| self := s; world := w; pc := AtReturnOn |}.
Proof.
  intros Hr Hd.
  change (5 + length (handlers s))%nat
    with (S (S (S (S (S (length (handlers s))))))).
  cbn [busy]. rewrite (proj2 (step_assignments s w)), step_get.
  rewrite (proj1 (step_assignments s w)), Hr, step_json, Hd.
  split; [done |]. split; [done |]. split; [done |]. split; [done |].
  apply (steps_handlers (handlers s) (length (store w)) (polled s)).
Qed.

(** C5. An iteration is under way (the condition has just been found true)
    and its GET will be answered with a body decoding to [d].  Whatever
    assignments to [should_run] fall between the steps of the iteration,
    before the request, while it is in flight or between two callbacks, the
    worker goes through the whole iteration as if nobody had written: the
    request completes and every handler is called.  It has not returned at
    any point on the way; if the flag is false when the iteration is over,
    the next evaluation of the condition ends [run], and no further request
    is issued. *)
Theorem C5_cooperative_stop (s : UpdateStatus) (w : World) (r : Response)
    (d : Json) (schedule : list Action) :
  server (sent w) (polling_request s) = Some r ->
  body r = Some d ->
  ticks schedule = (5 + length (handlers s))%nat ->
  flag_after schedule (should_run s) = false ->
  let c := {| self := s; world := w; pc := AtReturnOn |} in
  let w' := fired (handlers s) (length (store w)) (answered s d w) in
  let c' := {| self := set_should_run false (polled s); world := w';
               pc := AtWhile |} in
  exec schedule c = c'
  ∧ (forall pre post : list Action,
       schedule = pre ++ post -> pc (exec pre c) <> Returned)
  ∧ step c' = goto Returned c'
  ∧ sent (world (step c')) = sent w ++ [polling_request s]
  ∧ calls (world (step c'))
    = calls w ++ map (fun f => (cb_name f, length (store w))) (handlers s).
Proof.
  intros Hr Hd Hn Hf c w' c'.
  assert (exec schedule c = c') as Hexec.
  { rewrite exec_interleaved
      by (rewrite Hn; by apply (busy_iteration s w r d)).
    rewrite Hn. unfold c. rewrite machine_iteration, iteration_unfold, Hr, Hd.
    cbn [self]. by rewrite Hf. }
  split; [exact Hexec |]. split.
  - intros pre post Hsplit Hret.
    pose proof (exec_returned post _ Hret) as Hp.
    rewrite <- exec_app, <- Hsplit, Hexec in Hp. done.
  - split; [done |]. split.
    + cbn. unfold w'. by rewrite fired_sent.
    + cbn. unfold w'. by rewrite fired_calls.
Qed.

End poller.

(* ------------------------------------------------------------------ *)
(** * The statements at work on concrete clients and servers *)

(** [pause(True)] on the connected client, against the server that is up. *)
Lemma C8_pause_parameter_witness :
  _oauth_token connected_client = Some (JStr "NAop3")
  ∧ _csrf_token connected_client = Some (JStr "d41d8")
  ∧ sent (world_of (@core.pause demo_env true connected_client world0))
    = [{| req_url := pause_url;
          req_params := pause_params (JStr "NAop3") (JStr "d41d8") "true";
          req_headers := core.DEFAULT_ORIGIN |}]
  ∧ pause_params (JStr "NAop3") (JStr "d41d8") "true" !! "pause"
    = Some (JStr "true").
Proof.
  destruct (@C8_pause_parameter demo_env connected_client world0) as [_ Hp].
  simpl (_connected _) in Hp.
  destruct (Hp (JStr "NAop3") (JStr "d41d8") eq_refl eq_refl)
    as (Ht & Hpt & _).
  split; [reflexivity |]. split; [reflexivity |].
  split; [rewrite Ht; reflexivity | exact Hpt].
Defined.

(** [playURI] on the connected client. *)
Lemma C10_control_calls_frame_witness :
  _connected connected_client = true
  ∧ state (@core.playURI demo_env "spotify:track:5Yn8WCB4Dqm8snemB5Mu4K"
             connected_client world0) = connected_client
  ∧ outcome (@core.playURI demo_env "spotify:track:5Yn8WCB4Dqm8snemB5Mu4K"
               connected_client world0) = Ret status_body
  ∧ play_params (JStr "NAop3") (JStr "d41d8")
      "spotify:track:5Yn8WCB4Dqm8snemB5Mu4K" !! "context"
    = Some (JStr "spotify:track:5Yn8WCB4Dqm8snemB5Mu4K").
Proof.
  destruct (@C10_control_calls_frame demo_env connected_client world0 true
              "spotify:track:5Yn8WCB4Dqm8snemB5Mu4K" eq_refl)
    as (_ & _ & _ & Hs & Hplay).
  destruct (Hplay (JStr "NAop3") (JStr "d41d8") eq_refl eq_refl)
    as (Heq & Hctx & _).
  split; [reflexivity |]. split; [exact Hs |].
  split; [rewrite Heq; reflexivity | exact Hctx].
Defined.



(** One iteration of the demo poller: the logger, then the scrubber, both
    on the object at address 0. *)
Lemma C2_run_iteration_witness :
  update_status.should_run demo_poller = true
  ∧ @server demo_env (sent world0) (polling_request demo_poller)
    = Some {| body := Some status_body |}
  ∧ body {| body := Some status_body |} = Some status_body
  ∧ @update_status.run demo_env 1%nat demo_poller world0
    = @update_status.run demo_env 0%nat (polled demo_poller)
        (fired (handlers demo_poller) 0%nat (answered demo_poller status_body world0))
  ∧ sent (fired (handlers demo_poller) 0%nat (answered demo_poller status_body world0))
    = [polling_request demo_poller]
  ∧ calls (fired (handlers demo_poller) 0%nat (answered demo_poller status_body world0))
    = [("logger", 0%nat); ("scrubber", 0%nat)]
  ∧ sent (world_of (@update_status.run demo_env 1%nat demo_poller world0))
    = [{| req_url := status_url;
          req_params :=
            <["returnafter" := JStr "60"]>
              (<["returnon" := JStr "login,logout,play,pause,error,ap"]>
                 (<["csrf" := JStr "d41d8"]> {["oauth" := JStr "NAop3"]}));
          req_headers := core.DEFAULT_ORIGIN |}]
  ∧ calls (world_of (@update_status.run demo_env 1%nat demo_poller world0))
    = [("logger", 0%nat); ("scrubber", 0%nat)].
Proof.
  destruct (@C2_run_iteration demo_env 0%nat demo_poller world0
              {| body := Some status_body |} status_body
              eq_refl eq_refl eq_refl)
    as (Hrun & _ & _ & _ & _ & Hsent & _ & Hcalls & _ & _ & _ & Hparams
        & _ & _ & _ & _ & Hsent1 & Hcalls1).
  split; [reflexivity |]. split; [reflexivity |]. split; [reflexivity |].
  split; [exact Hrun |]. split; [exact Hsent |]. split; [exact Hcalls |].
  split; [| exact Hcalls1].
  rewrite Hsent1, Hparams. reflexivity.
Defined.

Lemma C3_dispatch_in_order_witness :
  handlers demo_poller
  = foldl event.__iadd__ event.__init__ [logger; scrubber]
  ∧ @server demo_env (sent world0) (polling_request demo_poller)
    = Some {| body := Some status_body |}
  ∧ body {| body := Some status_body |} = Some status_body
  ∧ calls (world_of (@update_status.iteration demo_env demo_poller world0))
    = [("logger", 0%nat); ("scrubber", 0%nat)]
  ∧ store (answered demo_poller status_body world0) !! 0%nat = Some status_body.
Proof.
  destruct (@C3_dispatch_in_order demo_env [logger; scrubber] demo_poller
              world0 {| body := Some status_body |} status_body
              eq_refl eq_refl eq_refl)
    as (Hit & Hst & Hcalls & _).
  split; [reflexivity |]. split; [reflexivity |]. split; [reflexivity |].
  split; [rewrite Hit; exact Hcalls | exact Hst].
Defined.

(** The poller against a server that is down, and against one that answers
    with a body that is not JSON. *)
Lemma C7_errors_propagate_witness :
  update_status.should_run demo_poller = true
  ∧ @server down_env (sent world0) (polling_request demo_poller) = None
  ∧ @update_status.run down_env 3%nat demo_poller world0
    = (Raise RequestException, polled demo_poller,
       log_request (polling_request demo_poller) world0)
  ∧ @server garbled_env (sent world0) (polling_request demo_poller)
    = Some {| body := None |}
  ∧ @update_status.run garbled_env 3%nat demo_poller world0
    = (Raise JSONDecodeError, polled demo_poller,
       log_request (polling_request demo_poller) world0).
Proof.
  destruct (@C7_errors_propagate down_env 2%nat demo_poller world0 eq_refl)
    as (Hdown & _).
  destruct (@C7_errors_propagate garbled_env 2%nat demo_poller world0 eq_refl)
    as (_ & Hgarbled & _).
  split; [reflexivity |]. split; [reflexivity |].
  split; [exact (Hdown eq_refl) |]. split; [reflexivity |].
  exact (Hgarbled {| body := None |} eq_refl eq_refl).
Defined.

Lemma C5_cooperative_stop_witness :
  @server demo_env (sent world0) (polling_request demo_poller)
  = Some {| body := Some status_body |}
  ∧ body {| body := Some status_body |} = Some status_body
  ∧ update_status.ticks stop_schedule = (5 + length (handlers demo_poller))%nat
  ∧ update_status.flag_after stop_schedule
      (update_status.should_run demo_poller) = false
  ∧ update_status.pc
      (@update_status.exec demo_env stop_schedule
         {| update_status.self := demo_poller; update_status.world := world0;
            update_status.pc := update_status.AtReturnOn |})
    = update_status.AtWhile
  ∧ calls (update_status.world
      (@update_status.exec demo_env stop_schedule
         {| update_status.self := demo_poller; update_status.world := world0;
            update_status.pc := update_status.AtReturnOn |}))
    = [("logger", 0%nat); ("scrubber", 0%nat)].
Proof.
  destruct (@C5_cooperative_stop demo_env demo_poller world0
              {| body := Some status_body |} status_body stop_schedule
              eq_refl eq_refl eq_refl eq_refl)
    as (Hexec & _).
  split; [reflexivity |]. split; [reflexivity |]. split; [reflexivity |].
  split; [reflexivity |].
  rewrite Hexec. split; reflexivity.
Defined.

(* ------------------------------------------------------------------ *)
(** * More on the control client *)

Section client_calls.
Context `{Env}.

(** The guarded calls on a connected client holding both tokens, spelled
    out. *)
Lemma pause_unfold (s : SpotifyLocal) (w : World) (o c : Json) (flag : bool) :
  _connected s = true ->
  _oauth_token s = Some o ->
  _csrf_token s = Some c ->
  let q := control_request s w "/remote/pause.json"
             (pause_params o c (if flag then "true" else "false")) in
  core.pause flag s w
  = (match server (sent w) q with
     | Some _ => Ret tt
     | None => Raise RequestException
     end, s, log_request q (draw w)).
Proof.
  intros Hc Ho Hs q. unfold core.pause, bind.
  rewrite (check_if_connected_true _ _ Hc).
  unfold q, control_request, pause_params.
  unfold_client; cbn. rewrite Ho, Hs; cbn.
  by destruct (server _ _).
Qed.

Lemma playURI_unfold (s : SpotifyLocal) (w : World) (o c : Json)
    (uri : string) :
  _connected s = true ->
  _oauth_token s = Some o ->
  _csrf_token s = Some c ->
  let q := control_request s w "/remote/play.json" (play_params o c uri) in
  core.playURI uri s w = (decoded_answer w q, s, log_request q (draw w)).
Proof.
  intros Hc Ho Hs q. unfold core.playURI, bind.
  rewrite (check_if_connected_true _ _ Hc).
  unfold q, decoded_answer, control_request, play_params.
  unfold_client; cbn. rewrite Ho, Hs; cbn.
  by destruct (server _ _) as [[[j|]]|].
Qed.

Lemma version_unfold (s : SpotifyLocal) (w : World) :
  let q := control_request s w "/service/version.json"
             {["service" := JStr "remote"]} in
  core.version s w = (decoded_answer w q, s, log_request q (draw w)).
Proof.
  intros q. unfold q, decoded_answer, control_request.
  unfold_client; cbn. by destruct (server _ _) as [[[j|]]|].
Qed.

Lemma listen_for_events_unfold (s : SpotifyLocal) (w : World) (o c : Json)
    (n : Z) :
  _connected s = true ->
  _oauth_token s = Some o ->
  _csrf_token s = Some c ->
  core.listen_for_events n s w
  = (Ret tt, core.set_process (Some (worker s w o c n)) s,
     log_start (worker s w o c n) (draw w)).
Proof.
  intros Hc Ho Hs. unfold core.listen_for_events, bind.
  rewrite (check_if_connected_true _ _ Hc).
  unfold worker, status_params, update_status.__init__.
  unfold_client; cbn. by rewrite Ho, Hs.
Qed.

Lemma guarded_not_connected (s : SpotifyLocal) (w : World) :
  _connected s = false ->
  core.get_current_status s w
    = (Raise (ConnectionError core.NOT_CONNECTED), s, w)
  ∧ (forall flag, core.pause flag s w
       = (Raise (ConnectionError core.NOT_CONNECTED), s, w))
  ∧ (forall uri, core.playURI uri s w
       = (Raise (ConnectionError core.NOT_CONNECTED), s, w))
  ∧ (forall n, core.listen_for_events n s w
       = (Raise (ConnectionError core.NOT_CONNECTED), s, w)).
Proof.
  intros Hc.
  repeat split; intros;
    unfold core.pause, core.get_current_status, core.playURI,
      core.listen_for_events, bind;
    by rewrite (check_if_connected_false _ _ Hc).
Qed.

(** What a call has issued, for the shapes of world a call leaves. *)
Lemma issued_none {A St} (w : World) (o : Outcome A) (s : St) :
  issued w (o, s, w) = [] ∧ issued w (o, s, draw w) = [].
Proof. unfold issued, world_of; cbn. by rewrite drop_all. Qed.

Lemma issued_one {A St} (w : World) (o : Outcome A) (s : St) (q : Request) :
  issued w (o, s, log_request q w) = [q]
  ∧ issued w (o, s, log_request q (draw w)) = [q].
Proof. unfold issued, world_of; cbn. by rewrite drop_app_length. Qed.

Lemma issued_start {A St} (w : World) (o : Outcome A) (s : St)
    (p : UpdateStatus) :
  issued w (o, s, log_start p (draw w)) = [].
Proof. unfold issued, world_of; cbn. by rewrite drop_all. Qed.

Lemma reachable_invariants (s0 s : SpotifyLocal) :
  reachable_from s0 s ->
  _origin s = _origin s0 ∧ (handshaken s0 -> handshaken s).
Proof.
  intros (ops & w0 & ->). split.
  - apply after_origin.
  - apply after_handshaken.
Qed.

(** X1. [get_current_status] on a connected client holding both tokens issues
    one GET, to [/remote/status.json] on a generated host, whose params are
    exactly [oauth] and [csrf], the two tokens; the client is left as it was
    and a decoded body is returned unmodified. *)
Theorem get_current_status_request (s : SpotifyLocal) (w : World)
    (o c : Json) :
  _connected s = true ->
  _oauth_token s = Some o ->
  _csrf_token s = Some c ->
  let q := control_request s w "/remote/status.json" (status_params o c) in
  core.get_current_status s w = (decoded_answer w q, s, log_request q (draw w))
  ∧ dom (req_params q) = {["oauth"; "csrf"]}
  ∧ req_params q !! "oauth" = Some o
  ∧ req_params q !! "csrf" = Some c
  ∧ forall (r : Response) (d : Json),
      server (sent w) q = Some r -> body r = Some d ->
      outcome (core.get_current_status s w) = Ret d.
Proof.
  intros Hc Ho Hs q.
  pose proof (get_current_status_unfold s w o c Hc Ho Hs) as Heq.
  split; [exact Heq |].
  split; [unfold q, control_request, status_params; cbn;
          rewrite dom_insert_L, dom_singleton_L; set_solver |].
  split; [by unfold q, control_request, status_params; cbn; simplify_map_eq |].
  split; [by unfold q, control_request, status_params; cbn; simplify_map_eq |].
  intros r d Hr Hd. rewrite Heq. unfold outcome, decoded_answer; cbn.
  fold q. by rewrite Hr, Hd.
Qed.

(** X2. On a connected client holding both tokens, [get_current_status],
    [pause], [unpause] and [playURI], and [version] on any client, each
    issue exactly one GET and draw exactly one host label, whether the
    request succeeds or not; [listen_for_events] draws one label and issues
    no GET of its own. *)
Theorem one_get_per_call (s : SpotifyLocal) (w : World) (o c : Json)
    (flag : bool) (uri : string) (n : Z) :
  _connected s = true ->
  _oauth_token s = Some o ->
  _csrf_token s = Some c ->
  Forall (fun w' : World =>
            length (drop (length (sent w)) (sent w')) = 1%nat
            ∧ drawn w' = S (drawn w))
    [world_of (core.get_current_status s w); world_of (core.pause flag s w);
     world_of (core.unpause s w); world_of (core.playURI uri s w);
     world_of (core.version s w)]
  ∧ sent (world_of (core.listen_for_events n s w)) = sent w
  ∧ drawn (world_of (core.listen_for_events n s w)) = S (drawn w).
Proof.
  intros Hc Ho Hs.
  assert (forall q, length (drop (length (sent w)) (sent (log_request q (draw w))))
                    = 1%nat ∧ drawn (log_request q (draw w)) = S (drawn w))
    as Hone.
  { intros q. cbn. by rewrite drop_app_length. }
  split; [| by rewrite (listen_for_events_unfold s w o c n Hc Ho Hs)].
  unfold core.unpause.
  rewrite (get_current_status_unfold s w o c Hc Ho Hs),
    (pause_unfold s w o c flag Hc Ho Hs), (pause_unfold s w o c false Hc Ho Hs),
    (playURI_unfold s w o c uri Hc Ho Hs), version_unfold.
  unfold world_of; cbn [snd].
  repeat (constructor; [apply Hone |]). constructor.
Qed.

(** X3. [pause] never decodes the answer: on a connected client holding both
    tokens it returns [None] whenever the transport delivers a response,
    whatever its body, and raises only when the transport fails; [playURI]
    given a response whose body is not JSON raises the decoding error. *)
Theorem pause_ignores_body (s : SpotifyLocal) (w : World) (o c : Json)
    (flag : bool) :
  _connected s = true ->
  _oauth_token s = Some o ->
  _csrf_token s = Some c ->
  let q := control_request s w "/remote/pause.json"
             (pause_params o c (if flag then "true" else "false")) in
  (forall r : Response,
     server (sent w) q = Some r -> outcome (core.pause flag s w) = Ret tt)
  ∧ (server (sent w) q = None ->
     outcome (core.pause flag s w) = Raise RequestException)
  ∧ forall (uri : string) (r : Response),
      server (sent w)
        (control_request s w "/remote/play.json" (play_params o c uri))
      = Some r ->
      body r = None ->
      outcome (core.playURI uri s w) = Raise JSONDecodeError.
Proof.
  intros Hc Ho Hs q.
  rewrite (pause_unfold s w o c flag Hc Ho Hs). fold q.
  split; [| split].
  - intros r Hr. unfold outcome; cbn. by rewrite Hr.
  - intros Hr. unfold outcome; cbn. by rewrite Hr.
  - intros uri r Hr Hb. rewrite (playURI_unfold s w o c uri Hc Ho Hs).
    unfold outcome, decoded_answer; cbn. by rewrite Hr, Hb.
Qed.


(** X5. The two token fetches, case by case.  [_get_csrf_token] issues its one
    GET through [_request] and subscripts the decoded answer with
    ["token"]: a transport failure, a body that is not JSON, an object
    without the key ([KeyError]) and a document that is not an object
    ([TypeError]) each raise, and the client is never changed.
    [_get_oauth_token] does the same with ["t"] on a GET without headers to
    the origin's [/token]; with no ["Origin"] entry in [_origin] it raises
    [KeyError] before issuing anything. *)
Theorem token_fetch_outcomes (s : SpotifyLocal) (w : World) :
  (let q := control_request s w "/simplecsrf/token.json" ∅ in
   core._get_csrf_token s w
   = (field_of (server (sent w) q) "token", s, log_request q (draw w)))
  ∧ core._get_oauth_token s w
    = match _origin s !! "Origin" with
      | None => (Raise (KeyError "Origin"), s, w)
      | Some u =>
          let q := {| req_url := u +:+ "/token"; req_params := ∅;
                      req_headers := ∅ |} in
          (field_of (server (sent w) q) "t", s, log_request q w)
      end.
Proof.
  split.
  - unfold field_of, control_request. unfold_client; cbn.
    by destruct (server _ _) as [[[d|]]|].
  - unfold field_of. unfold_client; cbn.
    destruct (_origin s !! "Origin") as [u|]; cbn; [| done].
    by destruct (server _ _) as [[[d|]]|].
Qed.

Lemma fetched_not_out_of_fuel (w : World) (q : Request) (k : string) :
  fetched w q k <> OutOfFuel
  ∧ raises_connection_error (fetched w q k) = false.
Proof.
  unfold fetched, decoded_answer.
  destruct (server _ _) as [[[d|]]|]; cbn; try done.
  destruct d; cbn; try done. by destruct (dict_get _ _).
Qed.

(** X6. A handshake that fails never sets the flag.  On a client with the
    default origin, [connect()] ends connected with both tokens assigned
    when it returns; when it raises, [_connected] and [_csrf_token] are what
    they were, and a client that was not connected still answers every
    guarded call with the not-connected error.  [connect()] itself never
    raises that error. *)
Theorem failed_connect_keeps_flag (s : SpotifyLocal) (w : World) :
  _origin s = core.DEFAULT_ORIGIN ->
  let r := core.connect s w in
  (outcome r = Ret tt -> _connected (state r) = true ∧ populated (state r))
  ∧ (outcome r <> Ret tt ->
     _connected (state r) = _connected s
     ∧ _csrf_token (state r) = _csrf_token s
     ∧ (_connected s = false ->
        forall (w' : World) (flag : bool),
          core.pause flag (state r) w'
          = (Raise (ConnectionError core.NOT_CONNECTED), state r, w')))
  ∧ raises_connection_error (outcome r) = false.
Proof.
  intros Ho r. unfold r. rewrite (connect_unfold s w Ho).
  destruct (fetched_not_out_of_fuel w oauth_request "t") as [Hf1 Hc1].
  destruct (fetched w oauth_request "t") as [t| e |]; [| | done].
  - match goal with
    | |- context [fetched ?w1 ?q2 "token"] =>
        destruct (fetched_not_out_of_fuel w1 q2 "token") as [Hf2 Hc2];
        destruct (fetched w1 q2 "token") as [c| e |]; [| | done]
    end; unfold outcome, state, populated; cbn.
    + split; [by eauto |]. split; [done | done].
    + split; [done |]. split; [| exact Hc2].
      intros _. split; [done |]. split; [done |].
      intros Hc w' flag.
      by apply (guarded_not_connected (core.set_oauth_token t s) w').
  - unfold outcome, state; cbn.
    split; [done |]. split; [| exact Hc1].
    intros _. split; [done |]. split; [done |].
    intros Hc w' flag. by apply (guarded_not_connected s w').
Qed.

(** X7. On the client as a handshake that succeeded leaves it, the tokens
    the calls send are the ones that handshake fetched: [get_current_status],
    [pause] and [playURI] called on that client, in any world, issue their
    one GET with [oauth] the field [t] of the first answer and [csrf] the
    field [token] of the second. *)
Theorem connect_then_calls (s s' : SpotifyLocal) (w w' : World) :
  _origin s = core.DEFAULT_ORIGIN ->
  core.connect s w = (Ret tt, s', w') ->
  exists t c : Json,
    fetched w oauth_request "t" = Ret t
    ∧ fetched (log_request oauth_request w)
        (control_request s (log_request oauth_request w)
           "/simplecsrf/token.json" ∅) "token" = Ret c
    ∧ forall (w2 : World) (flag : bool) (uri : string),
        issued w2 (core.get_current_status s' w2)
        = [control_request s' w2 "/remote/status.json" (status_params t c)]
        ∧ issued w2 (core.pause flag s' w2)
          = [control_request s' w2 "/remote/pause.json"
               (pause_params t c (if flag then "true" else "false"))]
        ∧ issued w2 (core.playURI uri s' w2)
          = [control_request s' w2 "/remote/play.json" (play_params t c uri)].
Proof.
  intros Ho Hconn. rewrite (connect_unfold s w Ho) in Hconn.
  destruct (fetched w oauth_request "t") as [t| |]; [| done | done].
  destruct (fetched _ _ "token") as [c| |]; [| done | done].
  exists t, c. split; [done |]. split; [done |].
  injection Hconn as <- <-.
  intros w2 flag uri.
  set (s1 := core.set_connected true
               (core.set_csrf_token c (core.set_oauth_token t s))).
  rewrite (get_current_status_unfold s1 w2 t c eq_refl eq_refl eq_refl),
    (pause_unfold s1 w2 t c flag eq_refl eq_refl eq_refl),
    (playURI_unfold s1 w2 t c uri eq_refl eq_refl eq_refl).
  repeat split; apply issued_one.
Qed.

(** X8. [disconnect()] on a client that has started no worker issues no request
    and only clears [_connected]: the tokens stay.  Afterwards every guarded
    call raises the not-connected error without issuing anything, while
    [version] still issues its GET. *)
Theorem disconnect_without_worker (s : SpotifyLocal) (w : World) :
  _process s = None ->
  let s' := core.set_connected false s in
  core.disconnect s w = (Ret tt, s', w)
  ∧ _oauth_token s' = _oauth_token s
  ∧ _csrf_token s' = _csrf_token s
  ∧ forall (w' : World) (flag : bool) (uri : string) (n : Z),
      core.get_current_status s' w'
        = (Raise (ConnectionError core.NOT_CONNECTED), s', w')
      ∧ core.pause flag s' w'
        = (Raise (ConnectionError core.NOT_CONNECTED), s', w')
      ∧ core.playURI uri s' w'
        = (Raise (ConnectionError core.NOT_CONNECTED), s', w')
      ∧ core.listen_for_events n s' w'
        = (Raise (ConnectionError core.NOT_CONNECTED), s', w')
      ∧ length (issued w' (core.version s' w')) = 1%nat.
Proof.
  intros Hp s'. split.
  { unfold core.disconnect, bind, gets, modify, ret. by rewrite Hp. }
  split; [done |]. split; [done |].
  intros w' flag uri n.
  destruct (guarded_not_connected s' w' eq_refl) as (Hg & Hpa & Hu & Hl).
  rewrite Hg, Hpa, Hu, Hl, version_unfold.
  repeat split. by rewrite (proj2 (issued_one _ _ _ _)).
Qed.

(** X9. [listen_for_events(wait=n)] on a connected client holding both tokens
    issues no GET: it draws one host, builds a worker whose flag is true,
    keeps it as [_process] and starts it.  The GET that worker polls with
    goes to [/remote/status.json] on that one host, with the client's
    [_origin] as headers and exactly four params: the two tokens, the fixed
    [returnon] list and [returnafter], the string form of [n]. *)
Theorem listen_starts_worker (s : SpotifyLocal) (w : World) (o c : Json)
    (n : Z) :
  _connected s = true ->
  _oauth_token s = Some o ->
  _csrf_token s = Some c ->
  let p := worker s w o c n in
  let q := polling_request p in
  core.listen_for_events n s w
  = (Ret tt, core.set_process (Some p) s, log_start p (draw w))
  ∧ update_status.should_run p = true
  ∧ req_url q = core.format_url (choices (drawn w)) "/remote/status.json"
  ∧ req_headers q = _origin s
  ∧ dom (req_params q) = {["oauth"; "csrf"; "returnon"; "returnafter"]}
  ∧ req_params q !! "oauth" = Some o
  ∧ req_params q !! "csrf" = Some c
  ∧ req_params q !! "returnon" = Some (JStr "login,logout,play,pause,error,ap")
  ∧ req_params q !! "returnafter" = Some (JStr (str n)).
Proof.
  intros Hc Ho Hs p q.
  split; [by apply listen_for_events_unfold |].
  split; [done |]. split; [done |]. split; [done |].
  split.
  { unfold q, p, polling_request, polled, worker, status_params; cbn.
    rewrite !dom_insert_L, dom_singleton_L. set_solver. }
  unfold q, p, polling_request, polled, worker, status_params; cbn.
  repeat split; by simplify_map_eq.
Qed.

(** X10. Calling [listen_for_events] a second time starts a second worker,
    on a host of its own, and replaces the client's handle: both workers
    have been started, and [_process] is the second one. *)
Theorem listen_twice (s : SpotifyLocal) (w : World) (o c : Json)
    (n1 n2 : Z) :
  _connected s = true ->
  _oauth_token s = Some o ->
  _csrf_token s = Some c ->
  let r1 := core.listen_for_events n1 s w in
  let r2 := core.listen_for_events n2 (state r1) (world_of r1) in
  let p1 := worker s w o c n1 in
  let p2 := worker s (draw w) o c n2 in
  outcome r2 = Ret tt
  ∧ started (world_of r2) = started w ++ [p1; p2]
  ∧ _process (state r2) = Some p2
  ∧ url p1 = core.format_url (choices (drawn w)) "/remote/status.json"
  ∧ url p2 = core.format_url (choices (S (drawn w))) "/remote/status.json".
Proof.
  intros Hc Ho Hs r1 r2 p1 p2.
  unfold r2, r1. rewrite (listen_for_events_unfold s w o c n1 Hc Ho Hs).
  unfold state, world_of; cbn [fst snd].
  fold p1.
  rewrite (listen_for_events_unfold (core.set_process (Some p1) s)
             (log_start p1 (draw w)) o c n2 Hc Ho Hs).
  unfold outcome; cbn.
  split; [done |]. split; [by rewrite <- app_assoc |].
  split; [done |]. split; done.
Qed.

(** X11. No method assigns [_origin].  Take any client with the default
    origin that is not connected and put it through any sequence of calls:
    on the client this gives, every GET issued by [version],
    [get_current_status], [pause], [unpause], [playURI] and
    [_get_csrf_token] carries the header [Origin: https://open.spotify.com],
    and so does the GET any worker started by [listen_for_events] polls
    with. *)
Theorem reachable_requests_carry_origin (s0 s : SpotifyLocal) (w : World)
    (flag : bool) (uri : string) (n : Z) :
  _origin s0 = core.DEFAULT_ORIGIN ->
  _connected s0 = false ->
  reachable_from s0 s ->
  Forall (fun q => carries_origin q = true)
    (issued w (core.version s w) ++ issued w (core.get_current_status s w)
     ++ issued w (core.pause flag s w) ++ issued w (core.unpause s w)
     ++ issued w (core.playURI uri s w) ++ issued w (core._get_csrf_token s w))
  ∧ Forall (fun p => carries_origin (polling_request p) = true)
      (drop (length (started w))
         (started (world_of (core.listen_for_events n s w)))).
Proof.
  intros Ho0 Hc0 Hr. destruct (reachable_invariants s0 s Hr) as [Ho Hh].
  rewrite Ho0 in Ho.
  assert (handshaken s) as Hhs by (apply Hh; intros Hc; congruence).
  clear Hh.
  pose proof (fun path p => control_request_carries_origin s w path p Ho)
    as Hcarry.
  rewrite version_unfold, get_csrf_token_unfold.
  rewrite !(proj2 (issued_one _ _ _ _)).
  destruct (_connected s) eqn:Hc.
  - destruct (Hhs Hc) as [[o Hot] [c Hct]]. unfold core.unpause.
    rewrite (get_current_status_unfold s w o c Hc Hot Hct),
      (pause_unfold s w o c flag Hc Hot Hct),
      (pause_unfold s w o c false Hc Hot Hct),
      (playURI_unfold s w o c uri Hc Hot Hct),
      (listen_for_events_unfold s w o c n Hc Hot Hct).
    rewrite !(proj2 (issued_one _ _ _ _)). split.
    + cbn. repeat (constructor; [apply Hcarry |]). constructor.
    + unfold world_of; cbn. rewrite drop_app_length.
      constructor; [| constructor].
      by apply polling_request_carries_origin.
  - destruct (guarded_not_connected s w Hc) as (Hg & Hp & Hu & Hl).
    unfold core.unpause. rewrite Hg, !Hp, Hu, Hl.
    rewrite !(proj1 (issued_none _ _ _)). split.
    + cbn. repeat (constructor; [apply Hcarry |]). constructor.
    + unfold world_of; cbn. by rewrite drop_all.
Qed.


End client_calls.

(* ------------------------------------------------------------------ *)
(** * More on the status poller *)

Section poller_runs.
Context `{Env}.

Import update_status.

(** The two assignments of an iteration are idempotent: from the second
    iteration on they change nothing. *)
Lemma polled_idem (self : UpdateStatus) : polled (polled self) = polled self.
Proof.
  destruct self as [m h u hs n b]. unfold polled, setitem_params; cbn.
  f_equal. apply map_eq. intros k.
  destruct (decide (k = "returnafter")) as [-> | Hra];
    [by rewrite !lookup_insert_eq |].
  destruct (decide (k = "returnon")) as [-> | Hro]; by simplify_map_eq.
Qed.

Lemma polling_request_polled (self : UpdateStatus) :
  polling_request (polled self) = polling_request self.
Proof. unfold polling_request. by rewrite polled_idem. Qed.

(** X12. [run] never clears the flag and never leaves the loop while it is set:
    started with the flag true (and nobody else writing it), however long it
    is let run it has not returned; it has raised, or it is still looping,
    and the flag is still true. *)
Theorem run_never_stops_by_itself (fuel : nat) (self : UpdateStatus)
    (w : World) :
  should_run self = true ->
  outcome (run fuel self w) <> Ret tt
  ∧ should_run (state (run fuel self w)) = true.
Proof.
  revert self w. induction fuel as [| fuel IH]; intros self w Hf; [done |].
  rewrite run_continues by done. unfold bind. rewrite iteration_unfold.
  destruct (server _ _) as [r|]; [destruct (body r) as [d|] |]; try done.
  by apply IH.
Qed.

(** X13. [run] itself changes nothing of the poller but two entries of
    [params].  With callbacks that leave the poller object alone (they are
    handed the payload only), the URL, the headers, the handlers, [wait] and
    the flag are what they were, and so is every param other than
    [returnon] and [returnafter], the two tokens among them, however [run]
    ends. *)
Theorem run_frame (fuel : nat) (self : UpdateStatus) (w : World) :
  let self' := state (run fuel self w) in
  url self' = url self
  ∧ headers self' = headers self
  ∧ handlers self' = handlers self
  ∧ wait self' = wait self
  ∧ should_run self' = should_run self
  ∧ forall k : string,
      k <> "returnon" -> k <> "returnafter" ->
      params self' !! k = params self !! k.
Proof.
  revert self w. induction fuel as [| fuel IH]; intros self w; [done |].
  assert (forall k : string, k <> "returnon" -> k <> "returnafter" ->
            params (polled self) !! k = params self !! k) as Hk.
  { intros k Hro Hra. cbn. by rewrite !lookup_insert_ne. }
  destruct (should_run self) eqn:Hf; [| by rewrite run_stops].
  rewrite run_continues by done. unfold bind. rewrite iteration_unfold.
  destruct (server _ _) as [r|]; [destruct (body r) as [d|] |]; try done.
  destruct (IH (polled self)
              (fired (handlers self) (length (store w)) (answered self d w)))
    as (Hu & Hh & Hhs & Hw & Hsr & Hp).
  cbn zeta. rewrite Hu, Hh, Hhs, Hw, Hsr.
  repeat split; try done. intros k Hro Hra. by rewrite Hp, Hk.
Qed.

(** X14. Every GET [run] issues is the same GET: same URL (the host drawn when
    the worker was built), same params, same headers.  After any number of
    iterations the log of requests has grown by copies of the one polling
    request, at most one per evaluation of the loop condition. *)
Theorem run_polls_identical (fuel : nat) (self : UpdateStatus) (w : World) :
  exists k : nat,
    (k <= fuel)%nat
    ∧ sent (world_of (run fuel self w))
      = sent w ++ replicate k (polling_request self).
Proof.
  revert self w. induction fuel as [| fuel IH]; intros self w.
  { exists O. split; [done |]. cbn. by rewrite app_nil_r. }
  destruct (should_run self) eqn:Hf.
  2:{ exists O. split; [lia |]. rewrite run_stops by done. cbn.
      by rewrite app_nil_r. }
  rewrite run_continues by done. unfold bind. rewrite iteration_unfold.
  destruct (server _ _) as [r|]; [destruct (body r) as [d|] |].
  - destruct (IH (polled self)
                (fired (handlers self) (length (store w)) (answered self d w)))
      as (k & Hk & Hs).
    exists (S k). split; [lia |].
    rewrite Hs, fired_sent, polling_request_polled. cbn.
    by rewrite <- app_assoc.
  - exists 1%nat. split; [lia | done].
  - exists 1%nat. split; [lia | done].
Qed.


End poller_runs.

(* ------------------------------------------------------------------ *)
(** * URLs, and the loop as a machine against the loop as a function *)

Section urls_and_machine.
Context `{Env}.

Import update_status.

Lemma string_app_assoc (a b c : string) : (a +:+ b) +:+ c = a +:+ (b +:+ c).
Proof.
  induction a as [| x a IH]; [done |].
  change (String x ((a +:+ b) +:+ c) = String x (a +:+ (b +:+ c))).
  by rewrite IH.
Qed.

(** X19. [get_url(path)] issues no request and changes nothing but the random
    source: it draws one label and returns
    [http://<label>.spotilocal.com:4381<path>].  Two calls in a row draw two
    labels, so the two URLs are on hosts of their own. *)
Theorem get_url_shape {St : Type} (path1 path2 : string) (s : St) (w : World) :
  let host k := "http://" +:+ choices k +:+ ".spotilocal.com:4381" in
  core.get_url path1 s w = (Ret (host (drawn w) +:+ path1), s, draw w)
  ∧ (u1 <- core.get_url path1 ;; u2 <- core.get_url path2 ;; ret (u1, u2)) s w
    = (Ret (host (drawn w) +:+ path1, host (S (drawn w)) +:+ path2), s,
       draw (draw w))
  ∧ sent (draw (draw w)) = sent w.
Proof.
  intros host.
  assert (forall k path, core.format_url (choices k) path = host k +:+ path)
    as Hfmt.
  { intros k path. unfold core.format_url, host.
    change (str core.DEFAULT_PORT) with "4381".
    rewrite !string_app_assoc. reflexivity. }
  split; [| split; [| done]].
  - unfold core.get_url. by rewrite Hfmt.
  - unfold bind, ret, core.get_url. cbn. by rewrite !Hfmt.
Qed.

Lemma steps_add (n m : nat) (c : Config) :
  steps (n + m) c = steps m (steps n c).
Proof. revert c. induction n as [| n IH]; intros c; [done |]. apply IH. Qed.

(** X20. The loop executed statement by statement and the loop executed
    iteration by iteration are the same loop.  However [run] ends after
    [fuel] evaluations of its condition, the machine started at the
    condition reaches, in some number of steps, the same poller and the same
    world: returned if [run] returned, raised with the same exception if it
    raised, and back at the condition if [run] is still looping. *)
Theorem machine_refines_run (fuel : nat) (self : UpdateStatus) (w : World) :
  exists n : nat,
    steps n {| self := self; world := w; pc := AtWhile |}
    = {| self := state (run fuel self w); world := world_of (run fuel self w);
         pc := match outcome (run fuel self w) with
               | Ret _ => Returned
               | Raise e => Raised e
               | OutOfFuel => AtWhile
               end |}.
Proof.
  revert self w. induction fuel as [| fuel IH]; intros self w.
  { by exists O. }
  destruct (should_run self) eqn:Hf.
  2:{ exists 1%nat. rewrite run_stops by done. cbn.
      unfold step, advance, gets; cbn. by rewrite Hf. }
  rewrite run_continues by done. unfold bind.
  pose proof (machine_iteration self w) as Hm. cbn zeta in Hm.
  assert (step {| self := self; world := w; pc := AtWhile |}
          = {| self := self; world := w; pc := AtReturnOn |}) as H1.
  { unfold step, advance, gets; cbn. by rewrite Hf. }
  assert (outcome (iteration self w) <> OutOfFuel) as Hne.
  { rewrite iteration_unfold.
    by destruct (server _ _) as [r|]; [destruct (body r) |]. }
  destruct (iteration self w) as [[[[]| e |] s1] w1]; [| | done].
  - destruct (IH s1 w1) as (n & Hn).
    exists (1 + ((5 + length (handlers self)) + n))%nat.
    rewrite steps_add. cbn [steps]. rewrite H1.
    by rewrite steps_add, Hm.
  - exists (1 + (5 + length (handlers self)))%nat.
    rewrite steps_add. cbn [steps]. rewrite H1. by rewrite Hm.
Qed.

End urls_and_machine.

(* ------------------------------------------------------------------ *)
(** * The further statements at work *)

Lemma get_current_status_request_witness :
  _connected connected_client = true
  ∧ _oauth_token connected_client = Some (JStr "NAop3")
  ∧ _csrf_token connected_client = Some (JStr "d41d8")
  ∧ @core.get_current_status demo_env connected_client world0
    = (Ret status_body, connected_client,
       {| sent := [{| req_url := status_url;
                      req_params := status_params (JStr "NAop3") (JStr "d41d8");
                      req_headers := core.DEFAULT_ORIGIN |}];
          drawn := 1%nat; store := []; calls := []; started := [] |}).
Proof.
  destruct (@get_current_status_request demo_env connected_client world0
              (JStr "NAop3") (JStr "d41d8") eq_refl eq_refl eq_refl)
    as (Heq & _).
  split; [reflexivity |]. split; [reflexivity |]. split; [reflexivity |].
  rewrite Heq. reflexivity.
Defined.

Lemma one_get_per_call_witness :
  _connected connected_client = true
  ∧ _oauth_token connected_client = Some (JStr "NAop3")
  ∧ _csrf_token connected_client = Some (JStr "d41d8")
  ∧ sent (world_of (@core.listen_for_events down_env 60 connected_client world0))
    = []
  ∧ drawn (world_of (@core.listen_for_events down_env 60 connected_client world0))
    = 1%nat.
Proof.
  destruct (@one_get_per_call down_env connected_client world0
              (JStr "NAop3") (JStr "d41d8") true "spotify:track:x" 60
              eq_refl eq_refl eq_refl)
    as (_ & Hs & Hd).
  split; [reflexivity |]. split; [reflexivity |]. split; [reflexivity |].
  split; [exact Hs | exact Hd].
Defined.

(** Against the server whose bodies are not JSON, [pause] returns and
    [playURI] raises. *)
Lemma pause_ignores_body_witness :
  _connected connected_client = true
  ∧ _oauth_token connected_client = Some (JStr "NAop3")
  ∧ _csrf_token connected_client = Some (JStr "d41d8")
  ∧ outcome (@core.pause garbled_env true connected_client world0) = Ret tt
  ∧ outcome (@core.playURI garbled_env "spotify:track:x" connected_client world0)
    = Raise JSONDecodeError.
Proof.
  destruct (@pause_ignores_body garbled_env connected_client world0
              (JStr "NAop3") (JStr "d41d8") true eq_refl eq_refl eq_refl)
    as (Hp & _ & Hplay).
  split; [reflexivity |]. split; [reflexivity |]. split; [reflexivity |].
  split.
  - exact (Hp {| body := None |} eq_refl).
  - exact (Hplay "spotify:track:x" {| body := None |} eq_refl eq_refl).
Defined.


(** A handshake against the server that is down. *)
Lemma failed_connect_keeps_flag_witness :
  _origin unconnected_client = core.DEFAULT_ORIGIN
  ∧ outcome (@core.connect down_env unconnected_client world0) <> Ret tt
  ∧ _connected (state (@core.connect down_env unconnected_client world0)) = false
  ∧ raises_connection_error (outcome (@core.connect down_env unconnected_client world0))
    = false.
Proof.
  destruct (@failed_connect_keeps_flag down_env unconnected_client world0 eq_refl)
    as (_ & Hfail & Hnc).
  assert (outcome (@core.connect down_env unconnected_client world0) <> Ret tt)
    as Hne by (vm_compute; discriminate).
  destruct (Hfail Hne) as (Hc & _).
  split; [reflexivity |]. split; [exact Hne |]. split; [exact Hc | exact Hnc].
Defined.

Lemma connect_then_calls_witness :
  _origin unconnected_client = core.DEFAULT_ORIGIN
  ∧ @core.connect demo_env unconnected_client world0
    = (Ret tt, connected_client,
       world_of (@core.connect demo_env unconnected_client world0))
  ∧ exists t c : Json,
      @fetched demo_env world0 oauth_request "t" = Ret t
      ∧ issued world0 (@core.get_current_status demo_env connected_client world0)
        = [@control_request demo_env connected_client world0
             "/remote/status.json" (status_params t c)].
Proof.
  assert (@core.connect demo_env unconnected_client world0
          = (Ret tt, connected_client,
             world_of (@core.connect demo_env unconnected_client world0))) as Hconn
    by reflexivity.
  destruct (@connect_then_calls demo_env unconnected_client connected_client world0
              _ eq_refl Hconn)
    as (t & c & Ht & _ & Hcalls).
  split; [reflexivity |]. split; [exact Hconn |].
  exists t, c. split; [exact Ht |].
  exact (proj1 (Hcalls world0 true "spotify:track:x")).
Defined.

Lemma disconnect_without_worker_witness :
  _process connected_client = None
  ∧ @core.disconnect demo_env connected_client world0
    = (Ret tt, core.set_connected false connected_client, world0)
  ∧ @core.pause demo_env true (core.set_connected false connected_client) world0
    = (Raise (ConnectionError core.NOT_CONNECTED),
       core.set_connected false connected_client, world0).
Proof.
  destruct (@disconnect_without_worker demo_env connected_client world0 eq_refl)
    as (Hd & _ & _ & Hcalls).
  destruct (Hcalls world0 true "spotify:track:x" 60) as (_ & Hp & _).
  split; [reflexivity |]. split; [exact Hd | exact Hp].
Defined.

Lemma listen_starts_worker_witness :
  _connected connected_client = true
  ∧ _oauth_token connected_client = Some (JStr "NAop3")
  ∧ _csrf_token connected_client = Some (JStr "d41d8")
  ∧ started (world_of (@core.listen_for_events demo_env 60 connected_client world0))
    = [update_status.__init__ [] (status_params (JStr "NAop3") (JStr "d41d8"))
         core.DEFAULT_ORIGIN status_url 60]
  ∧ req_params
      (polling_request
         (@worker demo_env connected_client world0 (JStr "NAop3")
            (JStr "d41d8") 60)) !! "returnafter" = Some (JStr "60").
Proof.
  destruct (@listen_starts_worker demo_env connected_client world0
              (JStr "NAop3") (JStr "d41d8") 60 eq_refl eq_refl eq_refl)
    as (Heq & _ & _ & _ & _ & _ & _ & _ & Hra).
  split; [reflexivity |]. split; [reflexivity |]. split; [reflexivity |].
  split; [rewrite Heq; reflexivity | exact Hra].
Defined.

Lemma listen_twice_witness :
  _connected connected_client = true
  ∧ _oauth_token connected_client = Some (JStr "NAop3")
  ∧ _csrf_token connected_client = Some (JStr "d41d8")
  ∧ length
      (started
         (world_of
            (@core.listen_for_events demo_env 1
               (state (@core.listen_for_events demo_env 60 connected_client world0))
               (world_of (@core.listen_for_events demo_env 60 connected_client world0)))))
    = 2%nat.
Proof.
  destruct (@listen_twice demo_env connected_client world0
              (JStr "NAop3") (JStr "d41d8") 60 1 eq_refl eq_refl eq_refl)
    as (_ & Hst & _).
  split; [reflexivity |]. split; [reflexivity |]. split; [reflexivity |].
  rewrite Hst. reflexivity.
Defined.

Lemma reachable_requests_carry_origin_witness :
  _origin unconnected_client = core.DEFAULT_ORIGIN
  ∧ _connected unconnected_client = false
  ∧ @reachable_from demo_env unconnected_client handshaken_client
  ∧ Forall (fun q => carries_origin q = true)
      (issued world0 (@core.version demo_env handshaken_client world0)
       ++ issued world0 (@core.get_current_status demo_env handshaken_client world0)
       ++ issued world0 (@core.pause demo_env true handshaken_client world0)
       ++ issued world0 (@core.unpause demo_env handshaken_client world0)
       ++ issued world0 (@core.playURI demo_env "spotify:track:x" handshaken_client world0)
       ++ issued world0 (@core._get_csrf_token demo_env handshaken_client world0)).
Proof.
  assert (@reachable_from demo_env unconnected_client handshaken_client) as Hr.
  { exists [core.Connect], world0. reflexivity. }
  destruct (@reachable_requests_carry_origin demo_env unconnected_client
              handshaken_client world0 true "spotify:track:x" 60
              eq_refl eq_refl Hr) as (Hq & _).
  split; [reflexivity |]. split; [reflexivity |].
  split; [exact Hr | exact Hq].
Defined.

Lemma run_never_stops_by_itself_witness :
  update_status.should_run demo_poller = true
  ∧ outcome (@update_status.run demo_env 4 demo_poller world0) <> Ret tt
  ∧ outcome (@update_status.run down_env 4 demo_poller world0) <> Ret tt.
Proof.
  split; [reflexivity |]. split.
  - exact (proj1 (@run_never_stops_by_itself demo_env 4 demo_poller world0
                     eq_refl)).
  - exact (proj1 (@run_never_stops_by_itself down_env 4 demo_poller world0
                     eq_refl)).
Defined.

